(** * Pinecone avatars: composition, export pipeline and picker state

    A shallow embedding of [src/types.ts], [src/utils/export.ts],
    [src/components/Avatar.tsx] and [src/components/AvatarPicker.tsx].

    JavaScript strings are sequences of UTF-16 code units; objects used
    as records or lookup tables are finite maps keyed by property name,
    a configuration property holding a string or [undefined], and a
    lookup table inheriting the members of [Object.prototype]; a size
    is a safe integer or another Number; and the browser-only functions
    run in a small state-and-exception monad over the host document. *)

From Stdlib Require Import ZArith String Ascii List Lia ZifyBool.
From Stdlib Require Import DecimalString DecimalPos DecimalFacts.
From stdpp Require Import gmap strings list fin_maps.
Local Open Scope Z_scope.

(** ** JavaScript strings *)

(** A JavaScript string: its UTF-16 code units, each in [0, 0xFFFF]. *)
Abbreviation jsstring := (list Z).

(** A source-code literal; every character of the literals used here is
    a single code unit. *)
Fixpoint lit (s : string) : jsstring :=
  match s with
  | EmptyString => []
  | String a r => Z.of_N (N_of_ascii a) :: lit r
  end.

(** [dq s] is [s] between two QUOTATION MARK code units (0x22). *)
Definition dq (s : jsstring) : jsstring := [34] ++ s ++ [34].

(** ** Numbers *)

(** [Number.isSafeInteger(n)]: an integer of magnitude below 2^53.
    Every such integer is a Number value, and no other integer is
    printed digit for digit. *)
Definition isSafeInteger (n : Z) : bool := Z.abs n <? 2 ^ 53.

(** A Number as the code uses one, as a size: a safe integer, or any
    other Number (a fraction, a magnitude from 2^53 on, NaN, an
    infinity), which stands here by the text that [String] gives it;
    that text is ASCII. *)
Inductive number : Type :=
  | SafeInteger (n : Z) (safe : isSafeInteger n = true)
  | OtherNumber (text : string).

(** The plain decimal numeral of an integer, with a leading minus sign
    for negatives. *)
Definition numeral (n : Z) : string := NilZero.string_of_int (Z.to_int n).

(** [String(x)], also what a template literal puts for [${x}]: for a
    safe integer Number::toString yields the plain decimal numeral. *)
Definition NumberToString (x : number) : jsstring :=
  match x with
  | SafeInteger n _ => lit (numeral n)
  | OtherNumber text => lit text
  end.

(** Reading code units as decimal digits, most significant first: the
    natural number they denote after [acc], or nothing when one of them
    is no digit. *)
Fixpoint decimalFrom (acc : Z) (s : jsstring) : option Z :=
  match s with
  | [] => Some acc
  | c :: rest =>
    if (48 <=? c) && (c <=? 57) then decimalFrom (10 * acc + (c - 48)) rest
    else None
  end.

(** The natural number a non-empty string of decimal digits denotes. *)
Definition decimalValue (s : jsstring) : option Z :=
  match s with
  | [] => None
  | _ :: _ => decimalFrom 0 s
  end.

(** ** Exceptions *)

Inductive exn : Type :=
  | Error (message : string)
  | TypeError (message : string)
  | ReferenceError (message : string)
  | URIError
  | InvalidCharacterError.

Inductive result (A : Type) : Type :=
  | Ok (a : A)
  | Throw (e : exn).
Arguments Ok {A} a.
Arguments Throw {A} e.

Definition rbind {A B} (r : result A) (k : A -> result B) : result B :=
  match r with
  | Ok a => k a
  | Throw e => Throw e
  end.

Definition rmap {A B} (f : A -> B) (r : result A) : result B :=
  rbind r (fun a => Ok (f a)).

(** ** Unicode transformation formats *)

(** UTF-16 surrogate code units. *)
Definition isLeadingSurrogate (c : Z) : bool := (0xD800 <=? c) && (c <=? 0xDBFF).
Definition isTrailingSurrogate (c : Z) : bool := (0xDC00 <=? c) && (c <=? 0xDFFF).

(** UTF16SurrogatePairToCodePoint. *)
Definition surrogatePairToCodePoint (lead trail : Z) : Z :=
  (lead - 0xD800) * 0x400 + (trail - 0xDC00) + 0x10000.

(** The code units of one code point (UTF16EncodeCodePoint). *)
Definition utf16Units (cp : Z) : jsstring :=
  if cp <? 0x10000 then [cp]
  else [0xD800 + (cp - 0x10000) / 0x400; 0xDC00 + (cp - 0x10000) mod 0x400].

(** The code points of a string, read as the string iterator reads them:
    a leading surrogate followed by a trailing one is a single code
    point, any other code unit stands for itself. *)
Fixpoint codePoints (s : jsstring) : list Z :=
  match s with
  | [] => []
  | c :: rest =>
    match rest with
    | d :: rest' =>
      if isLeadingSurrogate c && isTrailingSurrogate d
      then surrogatePairToCodePoint c d :: codePoints rest'
      else c :: codePoints rest
    | [] => [c]
    end
  end.

(** A Unicode scalar value: a code point that is not a surrogate. *)
Definition isScalarValue (cp : Z) : bool :=
  (0 <=? cp) && (cp <=? 0x10FFFF)
  && negb ((0xD800 <=? cp) && (cp <=? 0xDFFF)).

(** [s.isWellFormed()]: no lone surrogate. *)
Definition isWellFormed (s : jsstring) : bool :=
  forallb isScalarValue (codePoints s).

(** A value a code unit can take. *)
Definition isCodeUnit (c : Z) : bool := (0 <=? c) && (c <=? 0xFFFF).

(** Unicode text: a string of code units without a lone surrogate. *)
Definition isUnicodeText (s : jsstring) : bool :=
  forallb isCodeUnit s && isWellFormed s.

(** An octet. *)
Definition isOctet (b : Z) : Prop := 0 <= b < 256.

(** The UTF-8 octets of a code point (RFC 3629). *)
Definition utf8Octets (cp : Z) : list Z :=
  if cp <? 0x80 then [cp]
  else if cp <? 0x800 then [0xC0 + cp / 0x40; 0x80 + cp mod 0x40]
  else if cp <? 0x10000 then
    [0xE0 + cp / 0x1000; 0x80 + (cp / 0x40) mod 0x40; 0x80 + cp mod 0x40]
  else
    [0xF0 + cp / 0x40000; 0x80 + (cp / 0x1000) mod 0x40;
     0x80 + (cp / 0x40) mod 0x40; 0x80 + cp mod 0x40].

(** ** encodeURIComponent, unescape, btoa, Buffer *)

(** The characters [encodeURIComponent] leaves alone: ASCII letters and
    digits and [- _ . ! ~ * ' ( )]. *)
Definition uriUnreserved (c : Z) : bool :=
  (65 <=? c) && (c <=? 90) || (97 <=? c) && (c <=? 122)
  || (48 <=? c) && (c <=? 57)
  || (c =? 45) || (c =? 95) || (c =? 46) || (c =? 33) || (c =? 126)
  || (c =? 42) || (c =? 39) || (c =? 40) || (c =? 41).

(** An upper-case hexadecimal digit. *)
Definition hexDigit (n : Z) : Z := if n <? 10 then 48 + n else 55 + n.

(** ["%XX"] for one octet. *)
Definition percentEncode (b : Z) : jsstring :=
  [37; hexDigit (b / 16); hexDigit (b mod 16)].

(** [encodeURIComponent(s)] (ECMAScript Encode): unreserved code units
    are copied, every other code point becomes the percent-escapes of
    its UTF-8 octets, and an unpaired surrogate throws URIError. *)
Fixpoint encodeURIComponent (s : jsstring) : result jsstring :=
  match s with
  | [] => Ok []
  | c :: rest =>
    if uriUnreserved c then rmap (cons c) (encodeURIComponent rest)
    else if isTrailingSurrogate c then Throw URIError
    else if isLeadingSurrogate c then
      match rest with
      | d :: rest' =>
        if isTrailingSurrogate d
        then rmap (app (flat_map percentEncode
                          (utf8Octets (surrogatePairToCodePoint c d))))
                  (encodeURIComponent rest')
        else Throw URIError
      | [] => Throw URIError
      end
    else rmap (app (flat_map percentEncode (utf8Octets c)))
              (encodeURIComponent rest)
  end.

(** What [encodeURIComponent] writes for one code point. *)
Definition uriEscape (cp : Z) : jsstring :=
  if uriUnreserved cp then [cp] else flat_map percentEncode (utf8Octets cp).

(** The value of a hexadecimal digit of either case. *)
Definition hexValue (c : Z) : option Z :=
  if (48 <=? c) && (c <=? 57) then Some (c - 48)
  else if (65 <=? c) && (c <=? 70) then Some (c - 55)
  else if (97 <=? c) && (c <=? 102) then Some (c - 87)
  else None.

Definition hex2 (a b : Z) : option Z :=
  match hexValue a, hexValue b with
  | Some x, Some y => Some (x * 16 + y)
  | _, _ => None
  end.

Definition hex4 (a b c d : Z) : option Z :=
  match hex2 a b, hex2 c d with
  | Some x, Some y => Some (x * 256 + y)
  | _, _ => None
  end.

(** The escape that follows a PERCENT SIGN, if any, with the number of
    code units it occupies: ["uXXXX"] when at least five code units
    remain and the first is [u], else ["XX"] when at least two remain. *)
Definition escapeAfterPercent (rest : jsstring) : option (Z * nat) :=
  match rest with
  | u :: a :: b :: c :: d :: _ =>
    if u =? 117 then option_map (fun n => (n, 5%nat)) (hex4 a b c d)
    else option_map (fun n => (n, 2%nat)) (hex2 u a)
  | a :: b :: _ => option_map (fun n => (n, 2%nat)) (hex2 a b)
  | _ => None
  end.

(** The loop of [unescape] (ECMAScript Annex B); [skip] counts the code
    units of an escape already consumed. *)
Fixpoint unescapeFrom (skip : nat) (s : jsstring) : jsstring :=
  match s with
  | [] => []
  | c :: rest =>
    match skip with
    | S k => unescapeFrom k rest
    | O =>
      if c =? 37 then
        match escapeAfterPercent rest with
        | Some (n, k) => n :: unescapeFrom k rest
        | None => c :: unescapeFrom 0 rest
        end
      else c :: unescapeFrom 0 rest
    end
  end.

Definition unescape (s : jsstring) : jsstring := unescapeFrom 0 s.

(** The Base64 alphabet (RFC 4648, table 1). *)
Definition base64Char (i : Z) : Z :=
  if i <? 26 then 65 + i
  else if i <? 52 then 97 + (i - 26)
  else if i <? 62 then 48 + (i - 52)
  else if i =? 62 then 43
  else 47.

(** Base64 with padding: three octets give four characters. *)
Fixpoint base64Encode (bs : list Z) : jsstring :=
  match bs with
  | [] => []
  | [a] => [base64Char (a / 4); base64Char ((a mod 4) * 16); 61; 61]
  | [a; b] =>
    [base64Char (a / 4); base64Char ((a mod 4) * 16 + b / 16);
     base64Char ((b mod 16) * 4); 61]
  | a :: b :: c :: rest =>
    base64Char (a / 4) :: base64Char ((a mod 4) * 16 + b / 16)
    :: base64Char ((b mod 16) * 4 + c / 64) :: base64Char (c mod 64)
    :: base64Encode rest
  end.

(** [btoa(s)]: [s] is a binary string, one octet per code unit; a code
    unit above 0xFF throws InvalidCharacterError. *)
Definition btoa (s : jsstring) : result jsstring :=
  if forallb (fun c => c <=? 255) s then Ok (base64Encode s)
  else Throw InvalidCharacterError.

(** [Buffer.from(s, 'utf-8')]: the UTF-8 octets of [s], a lone surrogate
    being replaced by U+FFFD. *)
Definition bufferFromUtf8 (s : jsstring) : list Z :=
  flat_map (fun cp => utf8Octets (if isScalarValue cp then cp else 0xFFFD))
           (codePoints s).

(** ** Reading a data URL back *)

(** The index of a Base64 character. *)
Definition base64Index (c : Z) : option Z :=
  if (65 <=? c) && (c <=? 90) then Some (c - 65)
  else if (97 <=? c) && (c <=? 122) then Some (c - 97 + 26)
  else if (48 <=? c) && (c <=? 57) then Some (c - 48 + 52)
  else if c =? 43 then Some 62
  else if c =? 47 then Some 63
  else None.

(** Base64 decoding of padded input; [None] on malformed input. *)
Fixpoint base64Decode (s : jsstring) : option (list Z) :=
  match s with
  | [] => Some []
  | c0 :: c1 :: c2 :: c3 :: rest =>
    match base64Index c0, base64Index c1 with
    | Some i0, Some i1 =>
      if c3 =? 61 then
        match rest with
        | [] =>
          if c2 =? 61 then Some [i0 * 4 + i1 / 16]
          else
            match base64Index c2 with
            | Some i2 => Some [i0 * 4 + i1 / 16; (i1 mod 16) * 16 + i2 / 4]
            | None => None
            end
        | _ :: _ => None
        end
      else
        match base64Index c2, base64Index c3, base64Decode rest with
        | Some i2, Some i3, Some bs =>
          Some (i0 * 4 + i1 / 16 :: (i1 mod 16) * 16 + i2 / 4
                :: (i2 mod 4) * 64 + i3 :: bs)
        | _, _, _ => None
        end
    | _, _ => None
    end
  | _ => None
  end.

Definition isContinuation (b : Z) : bool := (0x80 <=? b) && (b <=? 0xBF).

(** Strict UTF-8 decoding to UTF-16 code units; [None] on an invalid,
    overlong or surrogate sequence. *)
Fixpoint utf8Decode (bs : list Z) : option jsstring :=
  match bs with
  | [] => Some []
  | b0 :: r0 =>
    if (0 <=? b0) && (b0 <? 0x80) then option_map (cons b0) (utf8Decode r0)
    else if (0xC2 <=? b0) && (b0 <=? 0xDF) then
      match r0 with
      | b1 :: r1 =>
        if isContinuation b1
        then option_map (cons ((b0 - 0xC0) * 0x40 + (b1 - 0x80))) (utf8Decode r1)
        else None
      | _ => None
      end
    else if (0xE0 <=? b0) && (b0 <=? 0xEF) then
      match r0 with
      | b1 :: b2 :: r2 =>
        let cp := (b0 - 0xE0) * 0x1000 + (b1 - 0x80) * 0x40 + (b2 - 0x80) in
        if isContinuation b1 && isContinuation b2
           && (0x800 <=? cp) && isScalarValue cp
        then option_map (cons cp) (utf8Decode r2)
        else None
      | _ => None
      end
    else if (0xF0 <=? b0) && (b0 <=? 0xF4) then
      match r0 with
      | b1 :: b2 :: b3 :: r3 =>
        let cp := (b0 - 0xF0) * 0x40000 + (b1 - 0x80) * 0x1000
                  + (b2 - 0x80) * 0x40 + (b3 - 0x80) in
        if isContinuation b1 && isContinuation b2 && isContinuation b3
           && (0x10000 <=? cp) && (cp <=? 0x10FFFF)
        then option_map (app (utf16Units cp)) (utf8Decode r3)
        else None
      | _ => None
      end
    else None
  end.

(** Splitting off a known prefix. *)
Fixpoint stripPrefix (p s : jsstring) : option jsstring :=
  match p, s with
  | [], _ => Some s
  | a :: p', b :: s' => if a =? b then stripPrefix p' s' else None
  | _ :: _, [] => None
  end.

(** The text carried by a Base64 data URL with the given header: the
    Base64 payload is decoded to octets and the octets are read as UTF-8. *)
Definition decodeDataUrl (header url : jsstring) : option jsstring :=
  match stripPrefix header url with
  | Some payload =>
    match base64Decode payload with
    | Some bytes => utf8Decode bytes
    | None => None
    end
  | None => None
  end.

(** ** src/types.ts: the variant model *)

Module Types.

Definition BACKGROUNDS : list string :=
  ["babyBlue"; "coralRed"; "darkGray"; "lightGray";
   "mintGreen"; "pastelGreen"; "peach"; "softPink"]%string.

Definition SKINS : list string :=
  ["deepBrown"; "warmBrown"; "mediumTan"; "softPeach"; "lightCream"]%string.

Definition TSHIRTS : list string :=
  ["amber"; "blue"; "charcoal"; "green"; "orange";
   "pink"; "raspberry"; "white"; "yellow"]%string.

Definition EXPRESSIONS : list string :=
  ["angry"; "blissful"; "content"; "dizzy"; "excited";
   "furious"; "happy"; "playful"; "sad"; "sideGlance";
   "skeptical"; "sleepy"; "suspicious"; "wink"]%string.

Definition HAIRS : list string :=
  ["afroPuffs"; "asymmetricBuns"; "bob"; "bobSidePart"; "bowlCut";
   "braids"; "bunnyEars"; "curlyHeadband"; "curlyMessy"; "curlyPigtails";
   "curlyPuff"; "fullCurly"; "longAfro"; "longPeak"; "longStraight";
   "messyArtistic"; "pigtailBuns"; "shortBuns"; "shortBuzz"; "shortCurly";
   "sideBangs"; "spaceBuns"; "spikyEarmuffs"; "tinyBun"; "topKnot";
   "wavyCenterPart"; "wavyPuffs"]%string.

(** The property names of [AvatarConfig]. *)
Definition keys : gset string :=
  {["background"; "skin"; "tshirt"; "expression"; "hair"]}%string.

End Types.

(** ** Objects *)

(** A [Partial<AvatarConfig>] at run time: a property is absent, or
    present and holding a string, or present and holding [undefined]
    ([{ background: undefined }] is a value of the type). *)
Abbreviation PartialConfig := (gmap string (option string)).

(** An object all of whose properties hold strings, among the objects
    whose properties may hold [undefined]. *)
Definition asPartial (o : gmap string string) : PartialConfig := Some <$> o.

(** [{ ...a, ...b }]: own properties of [a], then those of [b]; a key
    of [b] overwrites the same key of [a], whatever it holds. *)
Definition spread {V} (a b : gmap string V) : gmap string V := b ∪ a.

(** [o.k]: [undefined] when the property is absent and when it holds
    [undefined]. *)
Definition read (o : PartialConfig) (k : string) : option string :=
  match o !! k with
  | Some (Some v) => Some v
  | Some None | None => None
  end.

(** The property key used by [table[v]]: an absent value ([undefined])
    is converted to the string "undefined". *)
Definition propertyKey (v : option string) : string :=
  default "undefined"%string v.

(** [`${table[v] || ''}`] for a table written as an object literal.
    An own entry is found first; it is a string, and the empty one is
    falsy and gives [''] like itself.  Without an own entry the lookup
    goes on to [Object.prototype]: a member found there ([constructor],
    [toString], [__proto__], ...) is a function or an object, so it is
    truthy, and the template converts it to text; [objectPrototype]
    gives that text for each member.  Only when that fails too is the
    value [undefined], and the result ['']. *)
Definition lookupOrEmpty (objectPrototype : gmap string string)
  (table : gmap string jsstring) (v : option string) : jsstring :=
  match table !! propertyKey v with
  | Some fragment => fragment
  | None =>
    match objectPrototype !! propertyKey v with
    | Some text => lit text
    | None => []
    end
  end.

(** ** The host environment *)

(** Calls into the host that the export functions make. *)
Inductive hostCall : Type :=
  | NewBlob
  | CreateObjectURL
  | RevokeObjectURL
  | CreateElement
  | AppendChild
  | Click
  | RemoveChild
  | NewImage
  | GetContext.

(** What happens to the image whose [src] has been set. *)
Inductive imageEvent : Type :=
  | LoadEvent
  | ErrorEvent
  | NoEvent.

(** The host as the export functions see it. *)
Record Host : Type := {
  (** [typeof window !== 'undefined'] *)
  windowDefined : bool;
  (** [typeof btoa === 'function'] *)
  btoaDefined : bool;
  (** the exception a host call throws, if it throws *)
  throws : hostCall -> option exn;
  (** [canvas.getContext('2d')] returns a context rather than [null] *)
  contextAvailable : bool;
  (** which handler of an image with the given [src] is called *)
  imageOutcome : jsstring -> imageEvent;
  (** [canvas.toDataURL('image/png')] of a square canvas of the given
      side after the image with the given [src] was drawn on it *)
  toDataURL : jsstring -> number -> jsstring
}.

(** The target of an anchor. *)
Inductive href : Type :=
  | ObjectUrl (handle : nat)
  | DataUrl (url : jsstring).

Record Anchor : Type := { a_href : href; a_download : jsstring }.

(** Effects on the document, in the order they happen. *)
Inductive effect : Type :=
  | Appended (a : Anchor)
  | Clicked (a : Anchor)
  | Removed (a : Anchor)
  | Allocated (handle : nat) (content : jsstring) (type : string)
  | Revoked (handle : nat)
  | Created (what : hostCall).

(** The part of the host that the export functions change. *)
Record World : Type := {
  (** object URLs created and not yet revoked *)
  objectUrls : list nat;
  (** the next handle [URL.createObjectURL] hands out *)
  nextHandle : nat;
  (** the children of [document.body] *)
  body : list Anchor;
  (** every effect so far, most recent first *)
  history : list effect
}.

Definition emptyWorld : World :=
  {| objectUrls := []; nextHandle := 0%nat; body := []; history := [] |}.

(** Computations that change the world and may throw; what was done
    before a throw stays done. *)
Definition M (A : Type) : Type := World -> result A * World.

#[global] Instance M_ret : MRet M := fun A a w => (Ok a, w).

#[global] Instance M_bind : MBind M := fun A B k m w =>
  match m w with
  | (Ok a, w') => k a w'
  | (Throw e, w') => (Throw e, w')
  end.

Definition throw {A} (e : exn) : M A := fun w => (Throw e, w).

(** A step that cannot throw. *)
Definition step {A} (f : World -> A * World) : M A := fun w =>
  (Ok (f w).1, (f w).2).

Definition logEffect (e : effect) : M unit :=
  step (fun w =>
    (tt, {| objectUrls := objectUrls w; nextHandle := nextHandle w;
            body := body w; history := e :: history w |})).

(** A host call that either throws what the host says or goes on. *)
Definition hostCalls (h : Host) (c : hostCall) : M unit :=
  match throws h c with
  | Some e => throw e
  | None => mret tt
  end.

Definition hrefEqb (x y : href) : bool :=
  match x, y with
  | ObjectUrl i, ObjectUrl j => Nat.eqb i j
  | DataUrl u, DataUrl v => bool_decide (u = v)
  | _, _ => false
  end.

(** Two anchors built alike stand for the same element. *)
Definition anchorEqb (a b : Anchor) : bool :=
  hrefEqb (a_href a) (a_href b)
  && bool_decide (a_download a = a_download b).

(** [URL.createObjectURL(blob)] *)
Definition createObjectURL (h : Host) (content : jsstring) (type : string)
  : M nat :=
  hostCalls h CreateObjectURL ;;
  step (fun w =>
    let u := nextHandle w in
    (u, {| objectUrls := u :: objectUrls w; nextHandle := S u;
           body := body w;
           history := Allocated u content type :: history w |})).

(** [URL.revokeObjectURL(url)] *)
Definition revokeObjectURL (h : Host) (u : nat) : M unit :=
  hostCalls h RevokeObjectURL ;;
  step (fun w =>
    (tt, {| objectUrls := List.filter (fun v => negb (Nat.eqb v u)) (objectUrls w);
            nextHandle := nextHandle w; body := body w;
            history := Revoked u :: history w |})).

(** [document.body.appendChild(a)] *)
Definition appendChild (h : Host) (a : Anchor) : M unit :=
  hostCalls h AppendChild ;;
  step (fun w =>
    (tt, {| objectUrls := objectUrls w; nextHandle := nextHandle w;
            body := body w ++ [a];
            history := Appended a :: history w |})).

(** [a.click()] *)
Definition click (h : Host) (a : Anchor) : M unit :=
  hostCalls h Click ;; logEffect (Clicked a).

(** [document.body.removeChild(a)] *)
Definition removeChild (h : Host) (a : Anchor) : M unit :=
  hostCalls h RemoveChild ;;
  step (fun w =>
    (tt, {| objectUrls := objectUrls w; nextHandle := nextHandle w;
            body := List.filter (fun b => negb (anchorEqb a b)) (body w);
            history := Removed a :: history w |})).

(** [new Blob(...)], [new Image()] and [document.createElement(...)]:
    objects of the script's own, collected with it. *)
Definition create (h : Host) (c : hostCall) : M unit :=
  hostCalls h c ;; logEffect (Created c).

(** The state of the promise an [async] function returns, once the
    host has delivered the events it is going to deliver. *)
Inductive promise (A : Type) : Type :=
  | Fulfilled (a : A)
  | Rejected (e : exn)
  | Pending.
Arguments Fulfilled {A} a.
Arguments Rejected {A} e.
Arguments Pending {A}.

(** The body of an [async] function or of a promise executor: an
    exception thrown in it rejects the promise instead of reaching the
    caller. *)
Definition async {A} (body : M (promise A)) : M (promise A) := fun w =>
  match body w with
  | (Ok p, w') => (Ok p, w')
  | (Throw e, w') => (Ok (Rejected e), w')
  end.

(** ** src/utils/export.ts *)

Module ExportUtils.

Definition defaultConfig : gmap string string :=
  list_to_map
    [("background", "babyBlue"); ("skin", "softPeach"); ("tshirt", "orange");
     ("expression", "happy"); ("hair", "shortBuzz")]%string.

(** The size the functions take when none is given. *)
Definition defaultSize : number := SafeInteger 474 eq_refl.

Section Markup.

(** What every object literal inherits from [Object.prototype] in the
    host: the name of each member and the text the member is converted
    to in a template literal. *)
Variable objectPrototype : gmap string string.

(** The fragment registry ([components/svg/*Strings]): one lookup table
    per attribute kind, from attribute value to markup fragment. *)
Variables backgroundSvg skinSvg tshirtSvg expressionSvg hairSvg
  : gmap string jsstring.

Definition generateSvg (config : PartialConfig) (size : number) : jsstring :=
  let merged := spread (asPartial defaultConfig) config in
  let background :=
    lookupOrEmpty objectPrototype backgroundSvg (read merged "background") in
  let tshirt := lookupOrEmpty objectPrototype tshirtSvg (read merged "tshirt") in
  let skin := lookupOrEmpty objectPrototype skinSvg (read merged "skin") in
  let hair := lookupOrEmpty objectPrototype hairSvg (read merged "hair") in
  let expression :=
    lookupOrEmpty objectPrototype expressionSvg (read merged "expression") in
  lit "<svg width=" ++ dq (NumberToString size)
    ++ lit " height=" ++ dq (NumberToString size)
    ++ lit " viewBox=" ++ dq (lit "0 0 474 474")
    ++ lit " fill=" ++ dq (lit "none")
    ++ lit " xmlns=" ++ dq (lit "http://www.w3.org/2000/svg")
    ++ lit "><defs><clipPath id=" ++ dq (lit "avatarClip")
    ++ lit "><circle cx=" ++ dq (lit "237")
    ++ lit " cy=" ++ dq (lit "237")
    ++ lit " r=" ++ dq (lit "237")
    ++ lit "/></clipPath></defs>"
    ++ background
    ++ lit "<g clip-path=" ++ dq (lit "url(#avatarClip)") ++ lit ">"
    ++ tshirt ++ skin ++ hair ++ expression
    ++ lit "</g></svg>".

(** The header of the vector data URL. *)
Definition svgDataUrlHeader : jsstring := lit "data:image/svg+xml;base64,".

Definition toBase64 (h : Host) (str : jsstring) : result jsstring :=
  if btoaDefined h then
    rbind (encodeURIComponent str) (fun escaped => btoa (unescape escaped))
  else Ok (base64Encode (bufferFromUtf8 str)).

Definition generateBase64 (h : Host) (config : PartialConfig) (size : number)
  : result jsstring :=
  let svg := generateSvg config size in
  rmap (app svgDataUrlHeader) (toBase64 h svg).

(** The executor of the promise in [generatePngBase64]. *)
Definition rasterise (h : Host) (svg : jsstring) (size : number)
  : M (promise jsstring) :=
  async
    (create h NewImage ;;
     create h CreateElement ;;
     hostCalls h GetContext ;;
     if negb (contextAvailable h)
     then mret (Rejected (Error "Could not get canvas context"))
     else
       if negb (btoaDefined h)
       then throw (ReferenceError "btoa is not defined")
       else
         match rbind (encodeURIComponent svg)
                     (fun escaped => btoa (unescape escaped)) with
         | Throw e => throw e
         | Ok payload =>
           let src := svgDataUrlHeader ++ payload in
           match imageOutcome h src with
           | LoadEvent => mret (Fulfilled (toDataURL h src size))
           | ErrorEvent => mret (Rejected (Error "Failed to load SVG image"))
           | NoEvent => mret Pending
           end
         end).

Definition generatePngBase64 (h : Host) (config : PartialConfig)
  (size : number) : M (promise jsstring) :=
  async
    (if negb (windowDefined h)
     then throw (Error "generatePngBase64 is only available in browser environment")
     else
       let svg := generateSvg config size in
       rasterise h svg size).

Definition downloadSvg (h : Host) (config : PartialConfig)
  (filename : jsstring) : M unit :=
  if negb (windowDefined h)
  then throw (Error "downloadSvg is only available in browser environment")
  else
    let svg := generateSvg config defaultSize in
    create h NewBlob ;;
    url ← createObjectURL h svg "image/svg+xml" ;
    create h CreateElement ;;
    let a := {| a_href := ObjectUrl url; a_download := filename |} in
    appendChild h a ;;
    click h a ;;
    removeChild h a ;;
    revokeObjectURL h url.

Definition downloadPng (h : Host) (config : PartialConfig) (size : number)
  (filename : jsstring) : M (promise unit) :=
  async
    (if negb (windowDefined h)
     then throw (Error "downloadPng is only available in browser environment")
     else
       awaited ← generatePngBase64 h config size ;
       match awaited with
       | Rejected e => throw e
       | Pending => mret Pending
       | Fulfilled dataUrl =>
         create h CreateElement ;;
         let a := {| a_href := DataUrl dataUrl; a_download := filename |} in
         appendChild h a ;;
         click h a ;;
         removeChild h a ;;
         mret (Fulfilled tt)
       end).

End Markup.

End ExportUtils.

(** ** src/components/Avatar.tsx *)

Module Avatar.

Definition defaultConfig : gmap string string :=
  list_to_map
    [("background", "babyBlue"); ("skin", "softPeach"); ("tshirt", "orange");
     ("expression", "happy"); ("hair", "shortBuzz")]%string.

(** The props the component destructures; a prop that is absent and a
    prop that holds [undefined] are the same to destructuring, and to
    the attributes [className] and [style].  Any other prop is never
    read. *)
Record AvatarProps : Type := {
  size : option number;
  className : option jsstring;
  style : option jsstring;
  background : option string;
  skin : option string;
  tshirt : option string;
  expression : option string;
  hair : option string
}.

(** A rendered element tree.  A child is an element, or [undefined],
    which renders nothing, or a member of [Object.prototype] that a
    lookup in a component table came back with. *)
#[local] Unset Elimination Schemes.
Inductive element : Type :=
  | Elem (tag : string) (attrs : list (string * jsstring))
         (children : list element)
  | Nothing
  | Inherited (member : string).
#[local] Set Elimination Schemes.

(** [table[v]] as a child, for a table written as an object literal:
    the own entry, or else the member of [Object.prototype] of that
    name, or else [undefined]. *)
Definition child (objectPrototype : gmap string string)
  (table : gmap string element) (v : option string) : element :=
  match table !! propertyKey v with
  | Some e => e
  | None =>
    match objectPrototype !! propertyKey v with
    | Some _ => Inherited (propertyKey v)
    | None => Nothing
    end
  end.

(** A destructured prop with the default [defaultConfig.k]: the
    default applies when the prop is [undefined]. *)
Definition propOr (given : option string) (k : string) : option string :=
  match given with
  | Some v => Some v
  | None => defaultConfig !! k
  end.

(** An optional attribute is left out when its value is [undefined]. *)
Definition optionalAttr (name : string) (v : option jsstring)
  : list (string * jsstring) :=
  match v with
  | Some x => [(name, x)]
  | None => []
  end.

Section Component.

Variable objectPrototype : gmap string string.

(** The component registry ([components/svg/*]). *)
Variables backgroundComponents skinComponents tshirtComponents
  expressionComponents hairComponents : gmap string element.

Definition Avatar (props : AvatarProps) : element :=
  let size := default (SafeInteger 200 eq_refl) (size props) in
  let className := className props in
  let style := style props in
  let background := propOr (background props) "background" in
  let skin := propOr (skin props) "skin" in
  let tshirt := propOr (tshirt props) "tshirt" in
  let expression := propOr (expression props) "expression" in
  let hair := propOr (hair props) "hair" in
  Elem "svg"
    ([("width", NumberToString size); ("height", NumberToString size);
      ("viewBox", lit "0 0 474 474"); ("fill", lit "none");
      ("xmlns", lit "http://www.w3.org/2000/svg")]%string
     ++ optionalAttr "className" className ++ optionalAttr "style" style)
    [ Elem "defs" []
        [ Elem "clipPath" [("id", lit "avatarClip")]%string
            [ Elem "circle"
                [("cx", lit "237"); ("cy", lit "237"); ("r", lit "237")]%string
                [] ] ];
      child objectPrototype backgroundComponents background;
      Elem "g" [("clipPath", lit "url(#avatarClip)")]%string
        [ child objectPrototype tshirtComponents tshirt;
          child objectPrototype skinComponents skin;
          child objectPrototype hairComponents hair;
          child objectPrototype expressionComponents expression ] ].

End Component.

(** [arr[i]], where [i] is the value of
    [Math.floor(Math.random() * arr.length)] in this call. *)
Definition randomItem (i : nat) (arr : list string) : option string :=
  arr !! i.

(** An object literal; a property whose value is [undefined] reads like
    an absent one. *)
Definition object (fields : list (string * option string))
  : gmap string string :=
  list_to_map (omap (fun kv => pair kv.1 <$> kv.2) fields).

(** The five indices drawn by one call of [generateRandomConfig], in the
    order the properties are evaluated. *)
Record Draws : Type := {
  drawBackground : nat;
  drawSkin : nat;
  drawTshirt : nat;
  drawExpression : nat;
  drawHair : nat
}.

Definition generateRandomConfig (d : Draws) : gmap string string :=
  object
    [("background", randomItem (drawBackground d) Types.BACKGROUNDS);
     ("skin", randomItem (drawSkin d) Types.SKINS);
     ("tshirt", randomItem (drawTshirt d) Types.TSHIRTS);
     ("expression", randomItem (drawExpression d) Types.EXPRESSIONS);
     ("hair", randomItem (drawHair d) Types.HAIRS)]%string.

End Avatar.

(** ** src/components/AvatarPicker.tsx *)

Module AvatarPicker.

(** An [AvatarConfig] object: where it lives and what it holds.  Two
    objects with the same fields at different addresses are different
    values for [Object.is]. *)
Record ConfigObject : Type := {
  address : nat;
  fields : gmap string string
}.

(** [Object.is] on the [value] prop. *)
Definition sameValue (x y : option ConfigObject) : bool :=
  match x, y with
  | None, None => true
  | Some a, Some b => Nat.eqb (address a) (address b)
  | _, _ => false
  end.

(** The props that bear on the state; [className] only reaches the
    container element. *)
Record Props : Type := {
  value : option ConfigObject;
  (** the callback, named by a number, when one is given *)
  onChange : option nat
}.

(** A call of a callback with a configuration. *)
Record Call : Type := { callee : nat; argument : gmap string string }.

(** The state of a mounted picker: the [config] state variable and the
    dependency list the sync effect last ran with. *)
Record Picker : Type := {
  config : gmap string string;
  syncedWith : option ConfigObject
}.

(** The sync effect: [if (value) setConfig(value)]. *)
Definition syncEffect (v : option ConfigObject) (c : gmap string string)
  : gmap string string :=
  match v with
  | Some o => fields o
  | None => c
  end.

(** The first render: [useState(value || defaultConfig)], then the
    effect runs. *)
Definition mount (p : Props) : Picker :=
  let initial :=
    match value p with
    | Some o => fields o
    | None => Avatar.defaultConfig
    end in
  {| config := syncEffect (value p) initial; syncedWith := value p |}.

(** A later render with new props: the state is kept, and the effect
    runs when its dependency [value] is not the one it last ran with. *)
Definition rerender (p : Props) (s : Picker) : Picker :=
  if sameValue (syncedWith s) (value p) then s
  else {| config := syncEffect (value p) (config s); syncedWith := value p |}.

(** [onChange?.(newConfig)] *)
Definition notify (p : Props) (newConfig : gmap string string) : list Call :=
  match onChange p with
  | Some f => [{| callee := f; argument := newConfig |}]
  | None => []
  end.

(** [updateConfig(key, val)]: the new state and the calls made. *)
Definition updateConfig (p : Props) (s : Picker) (key val : string)
  : Picker * list Call :=
  let newConfig := <[key := val]> (config s) in
  ({| config := newConfig; syncedWith := syncedWith s |}, notify p newConfig).

(** [handleRandom()], given the indices its [generateRandomConfig] draws. *)
Definition handleRandom (p : Props) (s : Picker) (d : Avatar.Draws)
  : Picker * list Call :=
  let newConfig := Avatar.generateRandomConfig d in
  ({| config := newConfig; syncedWith := syncedWith s |}, notify p newConfig).

End AvatarPicker.

(** ** Sample hosts *)

(** A host without [window] in which every other capability is present. *)
Definition nodeHost : Host :=
  {| windowDefined := false; btoaDefined := true; throws := fun _ => None;
     contextAvailable := true; imageOutcome := fun _ => LoadEvent;
     toDataURL := fun _ _ => [] |}.

(** A browser in which every call succeeds. *)
Definition browserHost : Host :=
  {| windowDefined := true; btoaDefined := true; throws := fun _ => None;
     contextAvailable := true; imageOutcome := fun _ => LoadEvent;
     toDataURL := fun _ _ => lit "data:image/png;base64," |}.

(** A browser whose document has no body yet, as it is for a script
    that runs from the document head: [document.body] is [null] and
    calling [appendChild] on it is a TypeError. *)
Definition headScriptHost : Host :=
  {| windowDefined := true; btoaDefined := true;
     throws := fun c =>
       match c with
       | AppendChild =>
         Some (TypeError "Cannot read properties of null (reading 'appendChild')")
       | _ => None
       end;
     contextAvailable := true; imageOutcome := fun _ => LoadEvent;
     toDataURL := fun _ _ => lit "data:image/png;base64," |}.

(** A host with [window] and a canvas but no [btoa] global, as a
    server-side DOM gives a script: calls return, and whatever image is
    given a source loads. *)
Definition noBtoaHost : Host :=
  {| windowDefined := true; btoaDefined := false; throws := fun _ => None;
     contextAvailable := true; imageOutcome := fun _ => LoadEvent;
     toDataURL := fun _ _ => lit "data:image/png;base64," |}.

(** A browser in which no image loads. *)
Definition brokenImageHost : Host :=
  {| windowDefined := true; btoaDefined := true; throws := fun _ => None;
     contextAvailable := true; imageOutcome := fun _ => ErrorEvent;
     toDataURL := fun _ _ => lit "data:image/png;base64," |}.

(** ** A sample of [Object.prototype] *)

(** The members of [Object.prototype] (ECMAScript 20.1.3 and B.2.2) with
    the text V8 converts each to: a built-in function prints as
    [function name() { [native code] }], and [__proto__] reads as
    [Object.prototype] itself, which prints as [[object Object]]. *)
Definition v8ObjectPrototype : gmap string string :=
  list_to_map
    [("constructor", "function Object() { [native code] }");
     ("__defineGetter__", "function __defineGetter__() { [native code] }");
     ("__defineSetter__", "function __defineSetter__() { [native code] }");
     ("hasOwnProperty", "function hasOwnProperty() { [native code] }");
     ("__lookupGetter__", "function __lookupGetter__() { [native code] }");
     ("__lookupSetter__", "function __lookupSetter__() { [native code] }");
     ("isPrototypeOf", "function isPrototypeOf() { [native code] }");
     ("propertyIsEnumerable",
      "function propertyIsEnumerable() { [native code] }");
     ("toString", "function toString() { [native code] }");
     ("valueOf", "function valueOf() { [native code] }");
     ("__proto__", "[object Object]");
     ("toLocaleString", "function toLocaleString() { [native code] }")]%string.

(** ** A sample registry *)

(** Fragments that are not ASCII: [babyBlue] holds U+1F600 (a surrogate
    pair), U+00E9 and U+20AC around a [circle] element. *)
Definition sampleBackgrounds : gmap string jsstring :=
  {[ "babyBlue"%string :=
       [0xD83D; 0xDE00; 0xE9; 0x20AC] ++ lit "<circle r='237'/>" ]}.

Definition sampleSkins : gmap string jsstring :=
  {[ "softPeach"%string := lit "<path d='M0 0'/>" ]}.

Definition sampleTshirts : gmap string jsstring :=
  {[ "orange"%string := lit "<rect/>" ]}.

Definition sampleExpressions : gmap string jsstring :=
  {[ "happy"%string := [0x263A] ]}.

Definition sampleHairs : gmap string jsstring := ∅.

(** Every live object URL was handed out earlier. *)
Definition handlesInUse (w : World) : Prop :=
  Forall (fun u => (u < nextHandle w)%nat) (objectUrls w).

(** ** Legal configurations *)

(** The options a picker selector offers for an attribute key. *)
Definition optionsOf (k : string) : list string :=
  if String.eqb k "background" then Types.BACKGROUNDS
  else if String.eqb k "skin" then Types.SKINS
  else if String.eqb k "tshirt" then Types.TSHIRTS
  else if String.eqb k "expression" then Types.EXPRESSIONS
  else if String.eqb k "hair" then Types.HAIRS
  else [].

(** An [AvatarConfig] as its type has it: the five keys, each holding
    one of the values of its union. *)
Definition isAvatarConfig (c : gmap string string) : Prop :=
  dom c = Types.keys /\ forall k v, c !! k = Some v -> v ∈ optionsOf k.

(** Every index drawn is an index of its list. *)
Definition drawsInRange (d : Avatar.Draws) : Prop :=
  (Avatar.drawBackground d < length Types.BACKGROUNDS)%nat
  /\ (Avatar.drawSkin d < length Types.SKINS)%nat
  /\ (Avatar.drawTshirt d < length Types.TSHIRTS)%nat
  /\ (Avatar.drawExpression d < length Types.EXPRESSIONS)%nat
  /\ (Avatar.drawHair d < length Types.HAIRS)%nat.

(** The indices drawn when every [Math.random()] returns 0, and when
    every one returns a number just below 1. *)
Definition firstDraws : Avatar.Draws :=
  {| Avatar.drawBackground := 0; Avatar.drawSkin := 0; Avatar.drawTshirt := 0;
     Avatar.drawExpression := 0; Avatar.drawHair := 0 |}.

Definition lastDraws : Avatar.Draws :=
  {| Avatar.drawBackground := 7; Avatar.drawSkin := 4; Avatar.drawTshirt := 8;
     Avatar.drawExpression := 13; Avatar.drawHair := 26 |}.

(** ** Reading the world *)

(** A host none of whose calls throws. *)
Definition neverThrows (h : Host) : Prop := forall c, throws h c = None.

(** The anchors clicked so far, most recent first. *)
Definition clicks (w : World) : list Anchor :=
  omap (fun e => match e with Clicked a => Some a | _ => None end) (history w).

(** What the promise of the image with the given [src] settles to:
    [onload] resolves it with the canvas's data URL, [onerror] rejects
    it, and with neither it stays pending. *)
Definition imageResult (h : Host) (src : jsstring) (size : number)
  : promise jsstring :=
  match imageOutcome h src with
  | LoadEvent => Fulfilled (toDataURL h src size)
  | ErrorEvent => Rejected (Error "Failed to load SVG image")
  | NoEvent => Pending
  end.

(** A character of a Base64 payload: of the alphabet, or the padding. *)
Definition isBase64Char (c : Z) : bool :=
  (65 <=? c) && (c <=? 90) || (97 <=? c) && (c <=? 122)
  || (48 <=? c) && (c <=? 57) || (c =? 43) || (c =? 47) || (c =? 61).

(** ** src/components/AvatarPicker.tsx: what is rendered *)

Module PickerView.

(** An option button of a selector: the option it shows, whether it
    carries the selected style ([value === option]), and the value its
    click passes to [onChange]. *)
Record OptionButton : Type := {
  shown : string;
  selected : bool;
  clickValue : string
}.

Definition CategorySelector (options : list string) (value : option string)
  : list OptionButton :=
  map (fun option =>
         {| shown := option;
            selected := bool_decide (value = Some option);
            clickValue := option |})
      options.

(** The five selectors of a picker, each with the key its [onChange]
    updates. *)
Definition selectors (s : AvatarPicker.Picker)
  : list (string * list OptionButton) :=
  let config := AvatarPicker.config s in
  [("background",
    CategorySelector Types.BACKGROUNDS (config !! "background"));
   ("skin", CategorySelector Types.SKINS (config !! "skin"));
   ("tshirt", CategorySelector Types.TSHIRTS (config !! "tshirt"));
   ("expression",
    CategorySelector Types.EXPRESSIONS (config !! "expression"));
   ("hair", CategorySelector Types.HAIRS (config !! "hair"))]%string.

(** The options shown as selected. *)
Definition selectedOptions (buttons : list OptionButton) : list string :=
  map shown (List.filter selected buttons).

End PickerView.

(** ** A picker over time *)

Module PickerSession.

(** What happens to a mounted picker: its parent renders it with new
    props, the user picks an option, or the user presses Randomize. *)
Inductive event : Type :=
  | Render (p : AvatarPicker.Props)
  | Pick (key val : string)
  | Randomize (d : Avatar.Draws).

(** The props of the last render, the picker's state, and the calls of
    the callback so far, oldest first. *)
Record Session : Type := {
  props : AvatarPicker.Props;
  picker : AvatarPicker.Picker;
  calls : list AvatarPicker.Call
}.

Definition start (p : AvatarPicker.Props) : Session :=
  {| props := p; picker := AvatarPicker.mount p; calls := [] |}.

Definition handle (s : Session) (e : event) : Session :=
  match e with
  | Render p =>
    {| props := p; picker := AvatarPicker.rerender p (picker s);
       calls := calls s |}
  | Pick key val =>
    let out := AvatarPicker.updateConfig (props s) (picker s) key val in
    {| props := props s; picker := out.1; calls := calls s ++ out.2 |}
  | Randomize d =>
    let out := AvatarPicker.handleRandom (props s) (picker s) d in
    {| props := props s; picker := out.1; calls := calls s ++ out.2 |}
  end.

Definition run (s : Session) (es : list event) : Session :=
  foldl handle s es.

(** An event a typed caller can cause: a render with a complete
    configuration or none, a pick of a legal value for a key, a
    randomisation with indices in range. *)
Definition typed (e : event) : Prop :=
  match e with
  | Render p =>
    forall o, AvatarPicker.value p = Some o ->
              isAvatarConfig (AvatarPicker.fields o)
  | Pick key val => key ∈ Types.keys /\ val ∈ optionsOf key
  | Randomize d => drawsInRange d
  end.

(** A user event, as opposed to a render. *)
Definition isUserEvent (e : event) : bool :=
  match e with
  | Render _ => false
  | Pick _ _ | Randomize _ => true
  end.

(** An event of a session in which every render passes the callback
    [f]. *)
Definition passes (f : nat) (e : event) : Prop :=
  match e with
  | Render p => AvatarPicker.onChange p = Some f
  | Pick _ _ | Randomize _ => True
  end.

End PickerSession.

(** ** demo/src/App.tsx *)

Module App.

(** The state of the demo application that bears on the avatar: its
    [config] and [randomAvatars] state variables, the picker it
    renders with [value={config}] and [onChange={setConfig}], and the
    address the next object created will get. *)
Record State : Type := {
  config : AvatarPicker.ConfigObject;
  randomAvatars : list AvatarPicker.ConfigObject;
  picker : AvatarPicker.Picker;
  nextAddress : nat
}.

(** The callback the application passes as [onChange]. *)
Definition setConfigCallback : nat := 0%nat.

Definition pickerProps (c : AvatarPicker.ConfigObject) : AvatarPicker.Props :=
  {| AvatarPicker.value := Some c;
     AvatarPicker.onChange := Some setConfigCallback |}.

(** [setConfig(c)] followed by the render it causes. *)
Definition setConfig (c : AvatarPicker.ConfigObject)
  (p : AvatarPicker.Picker) (st : State) : State :=
  {| config := c; randomAvatars := randomAvatars st;
     picker := AvatarPicker.rerender (pickerProps c) p;
     nextAddress := nextAddress st |}.

(** The object made by the [i]-th of the calls of
    [generateRandomConfig] that start at address [a]. *)
Definition generated (a : nat) (ds : nat -> Avatar.Draws) (i : nat)
  : AvatarPicker.ConfigObject :=
  {| AvatarPicker.address := (a + i)%nat;
     AvatarPicker.fields := Avatar.generateRandomConfig (ds i) |}.

(** [regenerateRandom()]: [Array.from({ length: 12 }, ...)], twelve
    fresh random configurations. *)
Definition regenerateRandom (ds : nat -> Avatar.Draws) (st : State) : State :=
  {| config := config st;
     randomAvatars := map (generated (nextAddress st) ds) (seq 0 12);
     picker := picker st;
     nextAddress := (nextAddress st + 12)%nat |}.

(** The first render, [useState(generateRandomConfig())], and the
    effect that fills the gallery. *)
Definition init (d : Avatar.Draws) (ds : nat -> Avatar.Draws) : State :=
  let c := {| AvatarPicker.address := 0;
              AvatarPicker.fields := Avatar.generateRandomConfig d |} in
  regenerateRandom ds
    {| config := c; randomAvatars := [];
       picker := AvatarPicker.mount (pickerProps c); nextAddress := 1 |}.

(** The calls of [onChange] reach [setConfig] with the object the
    picker has just created. *)
Definition deliver (calls : list AvatarPicker.Call)
  (p : AvatarPicker.Picker) (st : State) : State :=
  match calls with
  | [] =>
    {| config := config st; randomAvatars := randomAvatars st; picker := p;
       nextAddress := nextAddress st |}
  | call :: _ =>
    setConfig
      {| AvatarPicker.address := nextAddress st;
         AvatarPicker.fields := AvatarPicker.argument call |}
      p
      {| config := config st; randomAvatars := randomAvatars st;
         picker := p; nextAddress := S (nextAddress st) |}
  end.

(** What the user does in the application. *)
Inductive action : Type :=
  | PickOption (key val : string)
  | PressRandomize (d : Avatar.Draws)
  | SelectRandomAvatar (i : nat)
  | Regenerate (ds : nat -> Avatar.Draws).

Definition act (st : State) (a : action) : State :=
  match a with
  | PickOption key val =>
    let out := AvatarPicker.updateConfig (pickerProps (config st))
                 (picker st) key val in
    deliver out.2 out.1 st
  | PressRandomize d =>
    let out := AvatarPicker.handleRandom (pickerProps (config st))
                 (picker st) d in
    deliver out.2 out.1 st
  | SelectRandomAvatar i =>
    match randomAvatars st !! i with
    | Some avatarConfig => setConfig avatarConfig (picker st) st
    | None => st
    end
  | Regenerate ds => regenerateRandom ds st
  end.

Definition runActions (st : State) (actions : list action) : State :=
  foldl act st actions.

(** Every object the application holds was created earlier, no two of
    them share an address, and the picker last synchronised with the
    application's [config]. *)
Definition coherent (st : State) : Prop :=
  Forall (fun o => (AvatarPicker.address o < nextAddress st)%nat)
         (config st :: randomAvatars st)
  /\ (forall o o', o ∈ config st :: randomAvatars st ->
        o' ∈ config st :: randomAvatars st ->
        AvatarPicker.address o = AvatarPicker.address o' -> o = o')
  /\ AvatarPicker.syncedWith (picker st) = Some (config st)
  /\ AvatarPicker.config (picker st) = AvatarPicker.fields (config st).

(** An action a typed caller can cause: a pick of a legal value for a
    key, random draws in range. *)
Definition typedAction (a : action) : Prop :=
  match a with
  | PickOption key val => key ∈ Types.keys /\ val ∈ optionsOf key
  | PressRandomize d => drawsInRange d
  | SelectRandomAvatar _ => True
  | Regenerate ds => forall i, drawsInRange (ds i)
  end.

(** Every configuration the application holds or shows is complete. *)
Definition allLegal (st : State) : Prop :=
  Forall (fun o => isAvatarConfig (AvatarPicker.fields o))
         (config st :: randomAvatars st)
  /\ isAvatarConfig (AvatarPicker.config (picker st)).

End App.

(** * Properties *)

(** ** Decimal numerals *)

(** Reads the first digit of the numeral at hand. *)
Ltac digit_step :=
  cbn [NilEmpty.string_of_uint lit];
  match goal with
  | |- context [Z.of_N (N_of_ascii ?c)] =>
      let v := eval vm_compute in (Z.of_N (N_of_ascii c)) in
      change (Z.of_N (N_of_ascii c)) with v
  end;
  cbn [decimalFrom Z.leb Z.compare Pos.compare Pos.compare_cont andb].

Lemma decimalFrom_of_uint_acc (d : Decimal.uint) (acc : positive) :
  decimalFrom (Z.pos acc) (lit (NilEmpty.string_of_uint d))
  = Some (Z.pos (Pos.of_uint_acc d acc)).
Proof.
  revert acc. induction d as [|d IH|d IH|d IH|d IH|d IH|d IH|d IH|d IH|d IH|d IH];
    intros acc; [reflexivity|..];
    digit_step; cbn [Pos.of_uint_acc]; rewrite <- IH; f_equal; lia.
Qed.

Lemma decimalFrom_of_uint (d : Decimal.uint) :
  decimalFrom 0 (lit (NilEmpty.string_of_uint d))
  = Some (Z.of_N (Pos.of_uint d)).
Proof.
  induction d as [|d IH|d IH|d IH|d IH|d IH|d IH|d IH|d IH|d IH|d IH];
    [reflexivity|..];
    digit_step; cbn [Pos.of_uint Z.of_N];
    [exact IH|rewrite <- decimalFrom_of_uint_acc; f_equal; lia..].
Qed.

(** The numeral of a natural number consists of decimal digits and
    denotes the number. *)
Lemma decimalValue_numeral (n : Z) :
  0 <= n -> decimalValue (lit (numeral n)) = Some n.
Proof.
  intros Hn. unfold numeral. destruct n as [|p|p]; [reflexivity| |lia].
  cbn [Z.to_int NilZero.string_of_int NilZero.string_of_uint].
  pose proof (DecimalPos.Unsigned.of_to p) as Hp.
  pose proof (decimalFrom_of_uint (Pos.to_uint p)) as Hd.
  rewrite Hp in Hd. cbn [Z.of_N] in Hd.
  destruct (Pos.to_uint p) eqn:E;
    [by destruct (DecimalPos.Unsigned.to_uint_nonnil p)|..];
    exact Hd.
Qed.

(** The numeral of a positive number does not begin with a zero. *)
Lemma numeral_no_leading_zero (n : Z) :
  0 < n -> hd_error (lit (numeral n)) <> Some 48.
Proof.
  intros Hn. unfold numeral. destruct n as [|p|p]; [lia| |lia].
  cbn [Z.to_int NilZero.string_of_int NilZero.string_of_uint].
  assert (Hnorm : Decimal.unorm (Pos.to_uint p) = Pos.to_uint p).
  { rewrite <- DecimalPos.Unsigned.to_of.
    by rewrite DecimalPos.Unsigned.of_to. }
  destruct (Pos.to_uint p) as [|d|d|d|d|d|d|d|d|d|d] eqn:E;
    try (cbn; discriminate).
  exfalso. unfold Decimal.unorm in Hnorm.
  destruct (Decimal.nzhead (Decimal.D0 d)) as [|u|u|u|u|u|u|u|u|u|u] eqn:Hz;
    try discriminate Hnorm.
  - pose proof (DecimalPos.Unsigned.to_uint_nonzero p) as Hnz.
    rewrite E in Hnz. by rewrite <- Hnorm in Hnz.
  - injection Hnorm as ->.
    exact (DecimalFacts.nzhead_nonzero (Decimal.D0 d) d Hz).
Qed.

(** ** Base64 *)

(** Linear arithmetic with division and remainder by constants, and
    with the boolean comparisons of the definitions. *)
Ltac Zify.zify_post_hook ::= Z.to_euclidean_division_equations.

(** Settles the condition of an [if] in the goal by arithmetic. *)
Ltac decide_if :=
  match goal with
  | |- context [if ?c then _ else _] =>
      first [ replace c with true by lia | replace c with false by lia ]
  end.

(** Splits an alphabet index into the five rows of the table. *)
Ltac alphabet_rows i :=
  destruct (Z.ltb_spec i 26);
  [|destruct (Z.ltb_spec i 52);
    [|destruct (Z.ltb_spec i 62); [|destruct (Z.eqb_spec i 62)]]].

Lemma base64Index_base64Char (i : Z) :
  0 <= i < 64 -> base64Index (base64Char i) = Some i.
Proof.
  intros Hi. unfold base64Index, base64Char.
  alphabet_rows i; repeat decide_if; f_equal; lia.
Qed.

(** No character of the alphabet is the padding character. *)
Lemma base64Char_not_pad (i : Z) :
  0 <= i < 64 -> (base64Char i =? 61) = false.
Proof. intros Hi. unfold base64Char. alphabet_rows i; lia. Qed.

(** Induction three elements at a time. *)
Lemma list_ind3 {A} (P : list A -> Prop) :
  P [] -> (forall a, P [a]) -> (forall a b, P [a; b]) ->
  (forall a b c l, P l -> P (a :: b :: c :: l)) ->
  forall l, P l.
Proof.
  intros H0 H1 H2 H3.
  assert (H : forall l,
             P l /\ (forall a, P (a :: l)) /\ (forall a b, P (a :: b :: l))).
  { induction l as [|x l (IH0 & IH1 & IH2)]; [by auto|].
    split; [apply IH1|]. split; [intros a; apply IH2|].
    intros a b. by apply H3. }
  intros l. apply H.
Qed.

(** Base64 decoding undoes Base64 encoding of octets. *)
Lemma base64Decode_base64Encode (bs : list Z) :
  Forall isOctet bs -> base64Decode (base64Encode bs) = Some bs.
Proof.
  induction bs as [|a|a b|a b c l IH] using list_ind3; intros Hbs.
  - reflexivity.
  - apply Forall_cons_1 in Hbs as [Ha _]. unfold isOctet in Ha.
    cbn [base64Encode base64Decode].
    rewrite !base64Index_base64Char by lia.
    cbn. f_equal. f_equal. lia.
  - apply Forall_cons_1 in Hbs as [Ha Hbs].
    apply Forall_cons_1 in Hbs as [Hb _].
    unfold isOctet in *.
    cbn [base64Encode base64Decode].
    rewrite !base64Index_base64Char by lia.
    rewrite base64Char_not_pad by lia.
    cbn. f_equal. f_equal; [lia|]. f_equal. lia.
  - apply Forall_cons_1 in Hbs as [Ha Hbs].
    apply Forall_cons_1 in Hbs as [Hb Hbs].
    apply Forall_cons_1 in Hbs as [Hc Hl].
    unfold isOctet in *.
    cbn [base64Encode base64Decode].
    rewrite !base64Index_base64Char by lia.
    rewrite base64Char_not_pad by lia.
    rewrite (IH Hl). f_equal. f_equal; [lia|]. f_equal; [lia|]. f_equal. lia.
Qed.

(** ** UTF-8 *)

Lemma isScalarValue_spec (cp : Z) :
  isScalarValue cp = true
  <-> 0 <= cp <= 0x10FFFF /\ ~ (0xD800 <= cp <= 0xDFFF).
Proof. unfold isScalarValue. lia. Qed.

(** Splits a code point into the four lengths of its UTF-8 form. *)
Ltac utf8_lengths cp :=
  destruct (Z.ltb_spec cp 0x80);
  [|destruct (Z.ltb_spec cp 0x800); [|destruct (Z.ltb_spec cp 0x10000)]].

Lemma utf8Octets_octets (cp : Z) :
  0 <= cp <= 0x10FFFF -> Forall isOctet (utf8Octets cp).
Proof.
  intros Hcp. unfold utf8Octets, isOctet.
  utf8_lengths cp; repeat constructor; lia.
Qed.

(** The decoder reads the octets of one scalar value back as its code
    units and goes on with the rest. *)
Lemma utf8Decode_utf8Octets (cp : Z) (rest : list Z) :
  isScalarValue cp = true ->
  utf8Decode (utf8Octets cp ++ rest)
  = option_map (app (utf16Units cp)) (utf8Decode rest).
Proof.
  intros Hcp%isScalarValue_spec. unfold utf8Octets.
  utf8_lengths cp; cbn [app utf8Decode]; cbv zeta;
    unfold isContinuation, isScalarValue.
  - repeat decide_if. unfold utf16Units. by decide_if.
  - repeat decide_if.
    replace ((0xC0 + cp / 0x40 - 0xC0) * 0x40 + (0x80 + cp mod 0x40 - 0x80))
      with cp by lia.
    unfold utf16Units. by decide_if.
  - replace ((0xE0 + cp / 0x1000 - 0xE0) * 0x1000
             + (0x80 + (cp / 0x40) mod 0x40 - 0x80) * 0x40
             + (0x80 + cp mod 0x40 - 0x80))
      with cp by lia.
    repeat decide_if. unfold utf16Units. by decide_if.
  - replace ((0xF0 + cp / 0x40000 - 0xF0) * 0x40000
             + (0x80 + (cp / 0x1000) mod 0x40 - 0x80) * 0x1000
             + (0x80 + (cp / 0x40) mod 0x40 - 0x80) * 0x40
             + (0x80 + cp mod 0x40 - 0x80))
      with cp by lia.
    by repeat decide_if.
Qed.

Lemma utf8Decode_flat_map (cps : list Z) :
  forallb isScalarValue cps = true ->
  utf8Decode (flat_map utf8Octets cps) = Some (flat_map utf16Units cps).
Proof.
  induction cps as [|cp cps IH]; [reflexivity|].
  cbn [forallb flat_map]. intros [Hcp Hcps]%andb_prop.
  rewrite utf8Decode_utf8Octets by exact Hcp.
  by rewrite IH.
Qed.

Lemma octets_flat_map (cps : list Z) :
  forallb isScalarValue cps = true -> Forall isOctet (flat_map utf8Octets cps).
Proof.
  induction cps as [|cp cps IH]; [constructor|].
  cbn [forallb flat_map]. intros [Hcp Hcps]%andb_prop.
  apply Forall_app. split; [|by apply IH].
  apply utf8Octets_octets. apply isScalarValue_spec in Hcp. lia.
Qed.

(** ** Code points *)

(** Induction along [codePoints]: a string is empty, a single unit, a
    surrogate pair before a string, or a unit before a non-empty
    string with which it forms no pair. *)
Lemma codePoints_ind (P : jsstring -> Prop) :
  P [] ->
  (forall c, P [c]) ->
  (forall c d rest,
     isLeadingSurrogate c && isTrailingSurrogate d = true ->
     P rest -> P (c :: d :: rest)) ->
  (forall c d rest,
     isLeadingSurrogate c && isTrailingSurrogate d = false ->
     P (d :: rest) -> P (c :: d :: rest)) ->
  forall s, P s.
Proof.
  intros H0 H1 Hpair Hone.
  assert (H : forall s, P s /\ forall c, P (c :: s)).
  { induction s as [|d s [IHs IHc]]; [by auto|].
    split; [apply IHc|]. intros c.
    destruct (isLeadingSurrogate c && isTrailingSurrogate d) eqn:E.
    - by apply Hpair.
    - apply Hone; [exact E | apply IHc]. }
  intros s. apply H.
Qed.

Lemma codePoints_pair (c d : Z) (rest : jsstring) :
  isLeadingSurrogate c && isTrailingSurrogate d = true ->
  codePoints (c :: d :: rest) = surrogatePairToCodePoint c d :: codePoints rest.
Proof. intros H. cbn [codePoints]. by rewrite H. Qed.

Lemma codePoints_single (c d : Z) (rest : jsstring) :
  isLeadingSurrogate c && isTrailingSurrogate d = false ->
  codePoints (c :: d :: rest) = c :: codePoints (d :: rest).
Proof. intros H. cbn [codePoints]. by rewrite H. Qed.

(** Takes a well-formedness hypothesis on a string of two or more
    units apart, along the case of [codePoints_ind] at hand. *)
Ltac split_wf Hw Hp Hhead Htail :=
  unfold isWellFormed in Hw;
  first [ rewrite codePoints_pair in Hw by exact Hp
        | rewrite codePoints_single in Hw by exact Hp ];
  cbn [forallb] in Hw; apply andb_prop in Hw as [Hhead Htail].

(** No pair forms across the seam when the left string is well formed. *)
Lemma codePoints_app (a b : jsstring) :
  isWellFormed a = true -> codePoints (a ++ b) = codePoints a ++ codePoints b.
Proof.
  induction a as [|c|c d rest Hp IH|c d rest Hp IH] using codePoints_ind;
    intros Hwf.
  - reflexivity.
  - unfold isWellFormed in Hwf. cbn [codePoints forallb] in Hwf.
    apply andb_prop in Hwf as [Hc%isScalarValue_spec _].
    destruct b as [|d b]; [reflexivity|].
    change ([c] ++ d :: b) with (c :: d :: b).
    rewrite codePoints_single; [reflexivity|].
    unfold isLeadingSurrogate. lia.
  - split_wf Hwf Hp Hc Hrest.
    change ((c :: d :: rest) ++ b) with (c :: d :: (rest ++ b)).
    rewrite !codePoints_pair by exact Hp. by rewrite IH.
  - split_wf Hwf Hp Hc Hrest.
    change ((c :: d :: rest) ++ b) with (c :: d :: (rest ++ b)).
    rewrite !codePoints_single by exact Hp.
    change (d :: rest ++ b) with ((d :: rest) ++ b).
    by rewrite IH.
Qed.

Lemma isUnicodeText_app (a b : jsstring) :
  isUnicodeText a = true -> isUnicodeText b = true ->
  isUnicodeText (a ++ b) = true.
Proof.
  unfold isUnicodeText. intros [Hua Hwa]%andb_prop [Hub Hwb]%andb_prop.
  apply andb_true_intro. split.
  - rewrite forallb_app. by rewrite Hua, Hub.
  - unfold isWellFormed in *. rewrite codePoints_app by exact Hwa.
    rewrite forallb_app. by rewrite Hwa, Hwb.
Qed.

(** A literal is Unicode text: each of its characters is below 256. *)
Lemma isUnicodeText_lit (s : string) : isUnicodeText (lit s) = true.
Proof.
  induction s as [|a s IH]; [reflexivity|].
  cbn [lit]. change (?x :: lit s) with ([x] ++ lit s).
  apply isUnicodeText_app; [|exact IH].
  pose proof (N_ascii_bounded a) as Hb.
  unfold isUnicodeText, isWellFormed. cbn [forallb codePoints].
  unfold isCodeUnit, isScalarValue. lia.
Qed.

(** Unicode text is the UTF-16 form of its code points. *)
Lemma utf16Units_codePoints (s : jsstring) :
  isUnicodeText s = true -> flat_map utf16Units (codePoints s) = s.
Proof.
  unfold isUnicodeText.
  induction s as [|c|c d rest Hp IH|c d rest Hp IH] using codePoints_ind;
    intros [Hu Hw]%andb_prop.
  - reflexivity.
  - cbn [forallb] in Hu. apply andb_prop in Hu as [Hc _].
    cbn [codePoints flat_map]. unfold utf16Units, isCodeUnit in *.
    by replace (c <? 0x10000) with true by lia.
  - cbn [forallb] in Hu. apply andb_prop in Hu as [Hc Hu].
    apply andb_prop in Hu as [Hd Hu].
    split_wf Hw Hp Hs Hw.
    rewrite codePoints_pair by exact Hp. cbn [flat_map].
    rewrite IH by (apply andb_true_intro; split; assumption).
    unfold utf16Units, surrogatePairToCodePoint, isLeadingSurrogate,
      isTrailingSurrogate in *.
    replace ((c - 0xD800) * 0x400 + (d - 0xDC00) + 0x10000 <? 0x10000)
      with false by lia.
    cbn [app]. f_equal; [lia|]. f_equal. lia.
  - cbn [forallb] in Hu. apply andb_prop in Hu as [Hc Hu].
    split_wf Hw Hp Hs Hw.
    rewrite codePoints_single by exact Hp. cbn [flat_map].
    rewrite IH by (apply andb_true_intro; split; assumption).
    unfold utf16Units, isCodeUnit in *.
    by replace (c <? 0x10000) with true by lia.
Qed.

(** ** Percent-escapes *)

Lemma uriUnreserved_ascii (c : Z) :
  uriUnreserved c = true -> 0 <= c < 0x80 /\ c <> 37.
Proof. unfold uriUnreserved. lia. Qed.

(** On a well-formed string [encodeURIComponent] does not throw and
    escapes code point by code point. *)
Lemma encodeURIComponent_codePoints (s : jsstring) :
  isWellFormed s = true ->
  encodeURIComponent s = Ok (flat_map uriEscape (codePoints s)).
Proof.
  induction s as [|c|c d rest Hp IH|c d rest Hp IH] using codePoints_ind;
    intros Hw.
  - reflexivity.
  - unfold isWellFormed in Hw. cbn [codePoints forallb] in Hw.
    apply andb_prop in Hw as [Hc%isScalarValue_spec _].
    cbn [encodeURIComponent codePoints flat_map]. unfold uriEscape.
    destruct (uriUnreserved c); [reflexivity|].
    replace (isTrailingSurrogate c) with false
      by (unfold isTrailingSurrogate; lia).
    replace (isLeadingSurrogate c) with false
      by (unfold isLeadingSurrogate; lia).
    reflexivity.
  - split_wf Hw Hp Hs Hw.
    rewrite codePoints_pair by exact Hp.
    apply andb_prop in Hp as [Hc Hd].
    cbn [encodeURIComponent flat_map]. rewrite (IH Hw), Hc, Hd.
    unfold uriEscape.
    replace (uriUnreserved c) with false
      by (unfold uriUnreserved, isLeadingSurrogate in *; lia).
    replace (isTrailingSurrogate c) with false
      by (unfold isTrailingSurrogate, isLeadingSurrogate in *; lia).
    replace (uriUnreserved (surrogatePairToCodePoint c d)) with false
      by (unfold uriUnreserved, surrogatePairToCodePoint, isLeadingSurrogate,
            isTrailingSurrogate in *; lia).
    reflexivity.
  - split_wf Hw Hp Hc Hw. apply isScalarValue_spec in Hc.
    rewrite codePoints_single by exact Hp.
    cbn [flat_map].
    change (encodeURIComponent (c :: d :: rest)) with
      (if uriUnreserved c then rmap (cons c) (encodeURIComponent (d :: rest))
       else if isTrailingSurrogate c then Throw URIError
       else if isLeadingSurrogate c then
         (if isTrailingSurrogate d
          then rmap (app (flat_map percentEncode
                            (utf8Octets (surrogatePairToCodePoint c d))))
                    (encodeURIComponent rest)
          else Throw URIError)
       else rmap (app (flat_map percentEncode (utf8Octets c)))
                 (encodeURIComponent (d :: rest))).
    rewrite (IH Hw). unfold uriEscape.
    destruct (uriUnreserved c); [reflexivity|].
    replace (isTrailingSurrogate c) with false
      by (unfold isTrailingSurrogate; lia).
    replace (isLeadingSurrogate c) with false
      by (unfold isLeadingSurrogate; lia).
    reflexivity.
Qed.

Lemma hexValue_hexDigit (n : Z) :
  0 <= n < 16 -> hexValue (hexDigit n) = Some n.
Proof.
  intros Hn. unfold hexValue, hexDigit.
  destruct (Z.ltb_spec n 10); repeat decide_if; f_equal; lia.
Qed.

Lemma hexDigit_not_u (n : Z) : 0 <= n < 16 -> (hexDigit n =? 117) = false.
Proof. intros Hn. unfold hexDigit. destruct (Z.ltb_spec n 10); lia. Qed.

Lemma hex2_hexDigit (b : Z) :
  0 <= b < 256 -> hex2 (hexDigit (b / 16)) (hexDigit (b mod 16)) = Some b.
Proof.
  intros Hb. unfold hex2. rewrite !hexValue_hexDigit by lia. f_equal. lia.
Qed.

(** [unescape] reads ["%XX"] back as the octet, whatever follows. *)
Lemma unescapeFrom_percentEncode (b : Z) (t : jsstring) :
  0 <= b < 256 ->
  unescapeFrom 0 (percentEncode b ++ t) = b :: unescapeFrom 0 t.
Proof.
  intros Hb. unfold percentEncode. cbn [app unescapeFrom].
  change (37 =? 37) with true. cbv iota.
  assert (He : escapeAfterPercent
                 (hexDigit (b / 16) :: hexDigit (b mod 16) :: t)
               = Some (b, 2%nat)).
  { unfold escapeAfterPercent.
    destruct t as [|t1 [|t2 [|t3 t]]];
      rewrite ?hexDigit_not_u by lia; by rewrite hex2_hexDigit. }
  by rewrite He.
Qed.

Lemma unescapeFrom_percents (bs : list Z) (t : jsstring) :
  Forall isOctet bs ->
  unescapeFrom 0 (flat_map percentEncode bs ++ t) = bs ++ unescapeFrom 0 t.
Proof.
  induction 1 as [|b bs Hb _ IH]; [reflexivity|].
  cbn [flat_map]. rewrite <- app_assoc.
  rewrite unescapeFrom_percentEncode by exact Hb.
  by rewrite IH.
Qed.

Lemma unescapeFrom_uriEscape (cp : Z) (t : jsstring) :
  isScalarValue cp = true ->
  unescapeFrom 0 (uriEscape cp ++ t) = utf8Octets cp ++ unescapeFrom 0 t.
Proof.
  intros Hcp%isScalarValue_spec. unfold uriEscape.
  destruct (uriUnreserved cp) eqn:Hu.
  - apply uriUnreserved_ascii in Hu as [Hr Hne].
    unfold utf8Octets. replace (cp <? 0x80) with true by lia.
    cbn [app unescapeFrom]. by replace (cp =? 37) with false by lia.
  - apply unescapeFrom_percents, utf8Octets_octets. lia.
Qed.

(** [unescape(encodeURIComponent(s))] is the binary string of the UTF-8
    octets of [s]. *)
Lemma unescape_flat_map (cps : list Z) :
  forallb isScalarValue cps = true ->
  unescape (flat_map uriEscape cps) = flat_map utf8Octets cps.
Proof.
  unfold unescape.
  induction cps as [|cp cps IH]; [reflexivity|].
  cbn [forallb flat_map]. intros [Hcp Hcps]%andb_prop.
  rewrite unescapeFrom_uriEscape by exact Hcp. by rewrite IH.
Qed.

Lemma btoa_octets (bs : list Z) :
  Forall isOctet bs -> btoa bs = Ok (base64Encode bs).
Proof.
  intros H. unfold btoa.
  replace (forallb (fun c => c <=? 255) bs) with true; [reflexivity|].
  symmetry. apply forallb_forall. intros b Hb%list_elem_of_In.
  rewrite Forall_forall in H. apply H in Hb. unfold isOctet in Hb. lia.
Qed.

Lemma bufferFromUtf8_codePoints (s : jsstring) :
  isWellFormed s = true ->
  bufferFromUtf8 s = flat_map utf8Octets (codePoints s).
Proof.
  unfold isWellFormed, bufferFromUtf8.
  induction (codePoints s) as [|cp cps IH]; [reflexivity|].
  cbn [forallb flat_map]. intros [Hcp Hcps]%andb_prop.
  by rewrite Hcp, IH.
Qed.

(** ** The data URL of a text *)

(** With [btoa] or without, [toBase64] of Unicode text is the Base64 of
    its UTF-8 octets. *)
Lemma toBase64_utf8 (h : Host) (s : jsstring) :
  isUnicodeText s = true ->
  ExportUtils.toBase64 h s
  = Ok (base64Encode (flat_map utf8Octets (codePoints s))).
Proof.
  intros [_ Hw]%andb_prop. unfold ExportUtils.toBase64.
  destruct (btoaDefined h).
  - rewrite encodeURIComponent_codePoints by exact Hw. cbn [rbind].
    rewrite unescape_flat_map by exact Hw.
    apply btoa_octets, octets_flat_map, Hw.
  - by rewrite bufferFromUtf8_codePoints.
Qed.

Lemma stripPrefix_app (p s : jsstring) : stripPrefix p (p ++ s) = Some s.
Proof.
  induction p as [|a p IH]; [reflexivity|].
  cbn [app stripPrefix]. by rewrite Z.eqb_refl.
Qed.

(** Reading the payload of a text back gives its octets and then it. *)
Lemma decode_toBase64 (s : jsstring) :
  isUnicodeText s = true ->
  let octets := flat_map utf8Octets (codePoints s) in
  base64Decode (base64Encode octets) = Some octets
  /\ utf8Decode octets = Some s.
Proof.
  intros Ht octets. subst octets. pose proof Ht as [_ Hw]%andb_prop.
  split.
  - apply base64Decode_base64Encode, octets_flat_map, Hw.
  - rewrite utf8Decode_flat_map by exact Hw. by rewrite utf16Units_codePoints.
Qed.

(** The builtins on small inputs. *)
Example base64Encode_padding :
  base64Encode (lit "Man") = lit "TWFu"
  /\ base64Encode (lit "Ma") = lit "TWE="
  /\ base64Encode (lit "M") = lit "TQ==".
Proof. repeat split. Qed.

Example encodeURIComponent_sample :
  encodeURIComponent (lit "a b%" ++ [0xE9; 0x20AC; 0xD83D; 0xDE00])
  = Ok (lit "a%20b%25%C3%A9%E2%82%AC%F0%9F%98%80").
Proof. reflexivity. Qed.

Example unescape_sample :
  unescape (lit "%u0041%41%4g%zz%") = lit "AA%4g%zz%".
Proof. reflexivity. Qed.

(** ** Markup *)

Section MarkupProperties.

Variable objectPrototype : gmap string string.

Variables backgroundSvg skinSvg tshirtSvg expressionSvg hairSvg
  : gmap string jsstring.

Abbreviation generateSvg :=
  (ExportUtils.generateSvg objectPrototype
     backgroundSvg skinSvg tshirtSvg expressionSvg hairSvg).

(** The template of [generateSvg], with the five interpolated layers
    still as lookups. *)
Lemma generateSvg_layers (config : PartialConfig) (size : number) :
  let merged := spread (asPartial ExportUtils.defaultConfig) config in
  generateSvg config size
  = (lit "<svg width=" ++ [34] ++ NumberToString size ++ [34]
     ++ lit " height=" ++ [34] ++ NumberToString size ++ [34]
     ++ lit " viewBox=" ++ [34] ++ lit "0 0 474 474" ++ [34]
     ++ lit " fill=" ++ [34] ++ lit "none" ++ [34]
     ++ lit " xmlns=" ++ [34] ++ lit "http://www.w3.org/2000/svg" ++ [34]
     ++ lit "><defs><clipPath id=" ++ [34] ++ lit "avatarClip" ++ [34]
     ++ lit "><circle cx=" ++ [34] ++ lit "237" ++ [34]
     ++ lit " cy=" ++ [34] ++ lit "237" ++ [34]
     ++ lit " r=" ++ [34] ++ lit "237" ++ [34]
     ++ lit "/></clipPath>")
    ++ lit "</defs>"
    ++ lookupOrEmpty objectPrototype backgroundSvg (read merged "background")
    ++ lit "<g clip-path=" ++ [34] ++ lit "url(#avatarClip)" ++ [34] ++ lit ">"
    ++ lookupOrEmpty objectPrototype tshirtSvg (read merged "tshirt")
    ++ lookupOrEmpty objectPrototype skinSvg (read merged "skin")
    ++ lookupOrEmpty objectPrototype hairSvg (read merged "hair")
    ++ lookupOrEmpty objectPrototype expressionSvg (read merged "expression")
    ++ lit "</g></svg>".
Proof.
  intros merged. unfold ExportUtils.generateSvg, dq. fold merged.
  rewrite <- ?app_assoc. exact eq_refl.
Qed.

(** The property key a layer is looked up under: the value the
    configuration holds, ["undefined"] when it holds [undefined], and
    the default's value when the configuration has no such property. *)
Lemma merged_key (config : PartialConfig) (k d : string) :
  ExportUtils.defaultConfig !! k = Some d ->
  propertyKey (read (spread (asPartial ExportUtils.defaultConfig) config) k)
  = match config !! k with
    | Some (Some v) => v
    | Some None => "undefined"%string
    | None => d
    end.
Proof.
  intros Hd. unfold read, spread, asPartial.
  rewrite lookup_union, lookup_fmap, Hd.
  by destruct (config !! k) as [[v|]|].
Qed.

(** The three outcomes of a lookup: an own entry, a member inherited
    from [Object.prototype], nothing. *)
Lemma lookupOrEmpty_own (table : gmap string jsstring) (v : option string)
  (f : jsstring) :
  table !! propertyKey v = Some f -> lookupOrEmpty objectPrototype table v = f.
Proof. unfold lookupOrEmpty. by intros ->. Qed.



Lemma defaultConfig_values :
  ExportUtils.defaultConfig !! "background"%string = Some "babyBlue"%string
  /\ ExportUtils.defaultConfig !! "skin"%string = Some "softPeach"%string
  /\ ExportUtils.defaultConfig !! "tshirt"%string = Some "orange"%string
  /\ ExportUtils.defaultConfig !! "expression"%string = Some "happy"%string
  /\ ExportUtils.defaultConfig !! "hair"%string = Some "shortBuzz"%string.
Proof. repeat apply conj; exact eq_refl. Qed.

Lemma avatarDefault_values :
  Avatar.defaultConfig !! "background"%string = Some "babyBlue"%string
  /\ Avatar.defaultConfig !! "skin"%string = Some "softPeach"%string
  /\ Avatar.defaultConfig !! "tshirt"%string = Some "orange"%string
  /\ Avatar.defaultConfig !! "expression"%string = Some "happy"%string
  /\ Avatar.defaultConfig !! "hair"%string = Some "shortBuzz"%string.
Proof. repeat apply conj; exact eq_refl. Qed.

(** The property key a child is looked up under: the prop, or the
    default's value for an [undefined] prop. *)
Lemma propOr_key (given : option string) (k d : string) :
  Avatar.defaultConfig !! k = Some d ->
  propertyKey (Avatar.propOr given k) = default d given.
Proof. intros Hd. unfold Avatar.propOr. destruct given; [reflexivity|]. by rewrite Hd. Qed.

Lemma child_own (table : gmap string Avatar.element) (v : option string)
  (e : Avatar.element) :
  table !! propertyKey v = Some e -> Avatar.child objectPrototype table v = e.
Proof. unfold Avatar.child. by intros ->. Qed.

(** C1.  For every partial configuration and size, the markup is an
    envelope head that depends on the size alone and ends with the
    clip-path definitions, then the background layer, then the clip
    group holding the shirt, skin, hair and expression layers in that
    order, then the closing tags; and each layer is the very fragment
    its table holds for the value of that attribute (the value given,
    or the default's where none is given).  The element tree of the
    [Avatar] component has the same layering, each child being what
    the component table holds for the prop or its default. *)
Theorem generateSvg_layer_order :
  let key (given : option (option string)) (fallback : string) : string :=
    match given with
    | Some (Some v) => v
    | Some None => "undefined"%string
    | None => fallback
    end in
  (exists head : number -> jsstring,
     forall (config : PartialConfig) (size : number),
     exists background tshirt skin hair expression : jsstring,
       generateSvg config size
       = head size ++ lit "</defs>"
         ++ background
         ++ lit "<g clip-path=" ++ [34] ++ lit "url(#avatarClip)" ++ [34]
         ++ lit ">"
         ++ tshirt ++ skin ++ hair ++ expression
         ++ lit "</g></svg>"
       /\ (forall f,
             backgroundSvg !! key (config !! "background"%string) "babyBlue"
             = Some f -> background = f)
       /\ (forall f,
             tshirtSvg !! key (config !! "tshirt"%string) "orange" = Some f ->
             tshirt = f)
       /\ (forall f,
             skinSvg !! key (config !! "skin"%string) "softPeach" = Some f ->
             skin = f)
       /\ (forall f,
             hairSvg !! key (config !! "hair"%string) "shortBuzz" = Some f ->
             hair = f)
       /\ (forall f,
             expressionSvg !! key (config !! "expression"%string) "happy"
             = Some f -> expression = f))
  /\ (forall (bgC skC tsC exC haC : gmap string Avatar.element)
        (props : Avatar.AvatarProps),
        exists attrs defs background tshirt skin hair expression,
          Avatar.Avatar objectPrototype bgC skC tsC exC haC props
          = Avatar.Elem "svg" attrs
              [ Avatar.Elem "defs" [] defs;
                background;
                Avatar.Elem "g" [("clipPath"%string, lit "url(#avatarClip)")]
                  [ tshirt; skin; hair; expression ] ]
          /\ (forall e,
                bgC !! default "babyBlue"%string (Avatar.background props)
                = Some e -> background = e)
          /\ (forall e,
                tsC !! default "orange"%string (Avatar.tshirt props) = Some e ->
                tshirt = e)
          /\ (forall e,
                skC !! default "softPeach"%string (Avatar.skin props) = Some e ->
                skin = e)
          /\ (forall e,
                haC !! default "shortBuzz"%string (Avatar.hair props) = Some e ->
                hair = e)
          /\ (forall e,
                exC !! default "happy"%string (Avatar.expression props)
                = Some e -> expression = e)).
Proof.
  intros key. split.
  - eexists (fun size => _).
    intros config size.
    destruct defaultConfig_values as (Hb & Hs & Ht & He & Hh).
    eexists _, _, _, _, _. split; [apply generateSvg_layers|].
    cbv zeta. subst key. cbn beta.
    rewrite <- (merged_key config _ _ Hb), <- (merged_key config _ _ Ht),
      <- (merged_key config _ _ Hs), <- (merged_key config _ _ Hh),
      <- (merged_key config _ _ He).
    repeat apply conj; intros f Hf; by apply lookupOrEmpty_own.
  - intros bgC skC tsC exC haC props. unfold Avatar.Avatar.
    eexists _, _, _, _, _, _, _. split; [reflexivity|].
    destruct avatarDefault_values as (Hb & Hs & Ht & He & Hh).
    rewrite <- (propOr_key _ _ _ Hb), <- (propOr_key _ _ _ Ht),
      <- (propOr_key _ _ _ Hs), <- (propOr_key _ _ _ Hh),
      <- (propOr_key _ _ _ He).
    repeat apply conj; intros e; apply child_own.
Qed.


(** C4.  For every configuration and every size, the markup begins
    with [<svg width="text" height="text"], where [text] is what
    [String] gives the size: for a safe integer from zero up, decimal
    digits that denote the size, without a leading zero; then come the
    viewport declaration [viewBox="0 0 474 474"] and the clip-path
    definition [avatarClip], a circle centred at (237, 237) of radius
    237, half the viewport side. *)
Theorem generateSvg_frame_attributes (config : PartialConfig) (size : number) :
  exists text rest : jsstring,
    generateSvg config size
    = lit "<svg width=" ++ [34] ++ text ++ [34]
      ++ lit " height=" ++ [34] ++ text ++ [34]
      ++ lit " viewBox=" ++ [34] ++ lit "0 0 474 474" ++ [34]
      ++ lit " fill=" ++ [34] ++ lit "none" ++ [34]
      ++ lit " xmlns=" ++ [34] ++ lit "http://www.w3.org/2000/svg" ++ [34]
      ++ lit "><defs><clipPath id=" ++ [34] ++ lit "avatarClip" ++ [34]
      ++ lit "><circle cx=" ++ [34] ++ lit "237" ++ [34]
      ++ lit " cy=" ++ [34] ++ lit "237" ++ [34]
      ++ lit " r=" ++ [34] ++ lit "237" ++ [34]
      ++ lit "/></clipPath></defs>" ++ rest
    /\ (forall n safe, size = SafeInteger n safe -> 0 <= n ->
          decimalValue text = Some n
          /\ (n = 0 -> text = [48])
          /\ (0 < n -> hd_error text <> Some 48))
    /\ (forall other, size = OtherNumber other -> text = lit other)
    /\ decimalValue (lit "237") = Some (474 / 2).
Proof.
  exists (NumberToString size). eexists. split; [|split; [|split]].
  - rewrite generateSvg_layers. rewrite <- ?app_assoc. reflexivity.
  - intros n safe -> Hn. cbn [NumberToString]. split; [|split].
    + by apply decimalValue_numeral.
    + by intros ->.
    + apply numeral_no_leading_zero.
  - by intros other ->.
  - reflexivity.
Qed.

Lemma defaultConfig_dom : dom ExportUtils.defaultConfig = Types.keys.
Proof. apply (bool_decide_unpack _). vm_compute. exact I. Qed.

(** Merging a partial configuration whose properties hold strings over
    the defaults gives a configuration with exactly the five attribute
    keys, each holding one string: the partial's where the partial has
    the key, the default's where it has not.  The destructuring
    defaults of the [Avatar] component resolve every attribute to the
    same value. *)
Theorem merge_defaults_last_write_wins (config : PartialConfig) :
  dom config ⊆ Types.keys ->
  (forall k, config !! k <> Some None) ->
  let merged := spread (asPartial ExportUtils.defaultConfig) config in
  dom merged = Types.keys
  /\ (forall k, k ∈ Types.keys -> exists v, merged !! k = Some (Some v))
  /\ (forall k v, config !! k = Some v -> merged !! k = Some v)
  /\ (forall k, config !! k = None ->
        merged !! k = Some <$> ExportUtils.defaultConfig !! k)
  /\ (forall k, Avatar.propOr (read config k) k = read merged k).
Proof.
  intros Hdom Hdef merged. subst merged. unfold spread, asPartial.
  assert (Hd : dom (config ∪ (Some <$> ExportUtils.defaultConfig))
               = Types.keys).
  { rewrite dom_union_L, dom_fmap_L, defaultConfig_dom.
    by apply subseteq_union_1_L. }
  assert (Hl : forall k, (config ∪ (Some <$> ExportUtils.defaultConfig)) !! k
                 = match config !! k with
                   | Some v => Some v
                   | None => Some <$> ExportUtils.defaultConfig !! k
                   end).
  { intros k. rewrite lookup_union, lookup_fmap.
    by destruct (config !! k), (ExportUtils.defaultConfig !! k). }
  split; [exact Hd|]. split; [|split; [|split]].
  - intros k Hk. rewrite <- defaultConfig_dom in Hk.
    apply elem_of_dom in Hk as [d Hk]. rewrite Hl, Hk.
    destruct (config !! k) as [[v|]|] eqn:Hc.
    + by exists v.
    + by destruct (Hdef k).
    + by exists d.
  - intros k v Hk. by rewrite Hl, Hk.
  - intros k Hk. by rewrite Hl, Hk.
  - intros k. unfold Avatar.propOr, read. rewrite Hl.
    destruct (config !! k) as [[v|]|] eqn:Hc.
    + reflexivity.
    + by destruct (Hdef k).
    + change Avatar.defaultConfig with ExportUtils.defaultConfig.
      by destruct (ExportUtils.defaultConfig !! k).
Qed.

Lemma isUnicodeText_lookupOrEmpty (table : gmap string jsstring)
  (v : option string) :
  map_Forall (fun _ f => isUnicodeText f = true) table ->
  isUnicodeText (lookupOrEmpty objectPrototype table v) = true.
Proof.
  intros H. unfold lookupOrEmpty.
  destruct (table !! propertyKey v) as [f|] eqn:Hf; [exact (H _ _ Hf)|].
  destruct (objectPrototype !! propertyKey v); [|reflexivity].
  apply isUnicodeText_lit.
Qed.

Lemma isUnicodeText_NumberToString (size : number) :
  isUnicodeText (NumberToString size) = true.
Proof. destruct size; apply isUnicodeText_lit. Qed.

Section UnicodeRegistry.

Hypothesis backgroundText :
  map_Forall (fun _ f => isUnicodeText f = true) backgroundSvg.
Hypothesis skinText :
  map_Forall (fun _ f => isUnicodeText f = true) skinSvg.
Hypothesis tshirtText :
  map_Forall (fun _ f => isUnicodeText f = true) tshirtSvg.
Hypothesis expressionText :
  map_Forall (fun _ f => isUnicodeText f = true) expressionSvg.
Hypothesis hairText :
  map_Forall (fun _ f => isUnicodeText f = true) hairSvg.

Lemma generateSvg_unicode (config : PartialConfig) (size : number) :
  isUnicodeText (generateSvg config size) = true.
Proof.
  rewrite generateSvg_layers.
  repeat lazymatch goal with
  | |- isUnicodeText (_ ++ _) = true => apply isUnicodeText_app
  | |- isUnicodeText (lit _) = true => apply isUnicodeText_lit
  | |- isUnicodeText [34] = true => exact eq_refl
  | |- isUnicodeText (NumberToString _) = true =>
      apply isUnicodeText_NumberToString
  | |- isUnicodeText (lookupOrEmpty _ _ _) = true =>
      apply isUnicodeText_lookupOrEmpty; assumption
  end.
Qed.

(** C2.  With a registry of Unicode text (fragments of any code points,
    not only ASCII), for every partial configuration and size, in a
    host with [btoa] as in one without, [generateBase64] returns
    [data:image/svg+xml;base64,] followed by a payload; the payload is
    the Base64 of the UTF-8 octets of the markup, and reading it back,
    Base64 first and UTF-8 next, gives exactly the string [generateSvg]
    returns for the same configuration and size. *)
Theorem generateBase64_round_trip (h : Host) (config : PartialConfig)
  (size : number) :
  exists payload octets,
    ExportUtils.generateBase64 objectPrototype backgroundSvg skinSvg tshirtSvg
      expressionSvg hairSvg h config size
    = Ok (lit "data:image/svg+xml;base64," ++ payload)
    /\ base64Decode payload = Some octets
    /\ utf8Decode octets = Some (generateSvg config size)
    /\ decodeDataUrl (lit "data:image/svg+xml;base64,")
         (lit "data:image/svg+xml;base64," ++ payload)
       = Some (generateSvg config size).
Proof.
  pose proof (generateSvg_unicode config size) as Ht.
  exists (base64Encode (flat_map utf8Octets (codePoints (generateSvg config size)))).
  exists (flat_map utf8Octets (codePoints (generateSvg config size))).
  destruct (decode_toBase64 _ Ht) as [Hb Hu].
  repeat apply conj.
  - unfold ExportUtils.generateBase64.
    by rewrite (toBase64_utf8 h _ Ht).
  - exact Hb.
  - exact Hu.
  - unfold decodeDataUrl. by rewrite stripPrefix_app, Hb.
Qed.

End UnicodeRegistry.

End MarkupProperties.

(** A size of zero is as good as any other: the markup begins with
    [<svg width="0" height="0" ], here code unit by code unit. *)
Lemma generateSvg_frame_attributes_witness :
  firstn 26
    (ExportUtils.generateSvg v8ObjectPrototype ∅ ∅ ∅ ∅ ∅ ∅
       (SafeInteger 0 eq_refl))
  = [60; 115; 118; 103; 32; 119; 105; 100; 116; 104; 61; 34; 48; 34; 32;
     104; 101; 105; 103; 104; 116; 61; 34; 48; 34; 32]
  /\ exists rest,
       ExportUtils.generateSvg v8ObjectPrototype ∅ ∅ ∅ ∅ ∅ ∅
         (SafeInteger 0 eq_refl)
       = lit "<svg width=" ++ [34] ++ [48] ++ [34]
         ++ lit " height=" ++ [34] ++ [48] ++ [34]
         ++ lit " viewBox=" ++ [34] ++ lit "0 0 474 474" ++ [34] ++ rest.
Proof.
  split; [exact eq_refl|].
  destruct (generateSvg_frame_attributes v8ObjectPrototype ∅ ∅ ∅ ∅ ∅ ∅
              (SafeInteger 0 eq_refl)) as (text & rest & Hsvg & Hint & _).
  destruct (Hint 0 eq_refl eq_refl ltac:(lia)) as (_ & Hzero & _).
  rewrite (Hzero eq_refl) in Hsvg. rewrite Hsvg.
  eexists. rewrite <- ?app_assoc. reflexivity.
Defined.

Lemma merge_defaults_last_write_wins_witness :
  let config : PartialConfig :=
    {[ "background"%string := Some "mintGreen"%string ]} in
  dom config ⊆ Types.keys
  /\ (forall k, config !! k <> Some None)
  /\ spread (asPartial ExportUtils.defaultConfig) config !! "background"%string
     = Some (Some "mintGreen"%string)
  /\ spread (asPartial ExportUtils.defaultConfig) config !! "hair"%string
     = Some (Some "shortBuzz"%string).
Proof.
  intros config.
  assert (Hdom : dom config ⊆ Types.keys).
  { subst config. apply (bool_decide_unpack _). vm_compute. exact I. }
  assert (Hdef : forall k, config !! k <> Some None).
  { intros k. subst config.
    destruct (decide (k = "background"%string)) as [->|Hk].
    - by rewrite lookup_singleton_eq.
    - by rewrite lookup_singleton_ne. }
  split; [exact Hdom|]. split; [exact Hdef|].
  destruct (merge_defaults_last_write_wins config Hdom Hdef)
    as (_ & _ & Hp & Ha & _).
  split.
  - apply Hp. reflexivity.
  - rewrite Ha; reflexivity.
Defined.

Lemma generateBase64_round_trip_witness :
  map_Forall (fun _ f => isUnicodeText f = true) sampleBackgrounds
  /\ decodeDataUrl (lit "data:image/svg+xml;base64,")
       (match ExportUtils.generateBase64 v8ObjectPrototype sampleBackgrounds
                sampleSkins sampleTshirts sampleExpressions sampleHairs
                browserHost ∅ (SafeInteger 48 eq_refl)
        with
        | Ok url => url
        | Throw _ => []
        end)
     = Some (ExportUtils.generateSvg v8ObjectPrototype sampleBackgrounds
               sampleSkins sampleTshirts sampleExpressions sampleHairs ∅
               (SafeInteger 48 eq_refl)).
Proof.
  assert (Hb : map_Forall (fun _ f => isUnicodeText f = true) sampleBackgrounds)
    by (apply (bool_decide_unpack _); vm_compute; exact I).
  assert (Hs : map_Forall (fun _ f => isUnicodeText f = true) sampleSkins)
    by (apply (bool_decide_unpack _); vm_compute; exact I).
  assert (Ht : map_Forall (fun _ f => isUnicodeText f = true) sampleTshirts)
    by (apply (bool_decide_unpack _); vm_compute; exact I).
  assert (He : map_Forall (fun _ f => isUnicodeText f = true) sampleExpressions)
    by (apply (bool_decide_unpack _); vm_compute; exact I).
  assert (Hh : map_Forall (fun _ f => isUnicodeText f = true) sampleHairs)
    by (apply (bool_decide_unpack _); vm_compute; exact I).
  split; [exact Hb|].
  destruct (generateBase64_round_trip v8ObjectPrototype sampleBackgrounds
              sampleSkins sampleTshirts sampleExpressions sampleHairs
              Hb Hs Ht He Hh browserHost ∅ (SafeInteger 48 eq_refl))
    as (payload & octets & Hg & _ & _ & Hd).
  rewrite Hg. exact Hd.
Defined.


(** C5 at [{ background: undefined }].  The spread copies the
    [undefined] over the default, so the merged configuration has no
    background; [generateSvg] leaves the layer empty, where it writes
    the default's fragment when the property is left out, and where the
    [Avatar] component, whose destructuring default applies to an
    [undefined] prop, renders the default's background. *)
Theorem generateSvg_undefined_overrides_default :
  let config : PartialConfig := {[ "background"%string := None ]} in
  let generate :=
    ExportUtils.generateSvg v8ObjectPrototype sampleBackgrounds sampleSkins
      sampleTshirts sampleExpressions sampleHairs in
  let fragment := [0xD83D; 0xDE00; 0xE9; 0x20AC] ++ lit "<circle r='237'/>" in
  let circle := Avatar.Elem "circle" [("r"%string, lit "237")] [] in
  spread (asPartial ExportUtils.defaultConfig) config !! "background"%string
  = Some None
  /\ sampleBackgrounds !! "babyBlue"%string = Some fragment
  /\ exists head rest,
       generate ∅ (SafeInteger 48 eq_refl) = head ++ fragment ++ rest
       /\ generate config (SafeInteger 48 eq_refl) = head ++ rest
       /\ exists attrs defs group,
            Avatar.Avatar v8ObjectPrototype {[ "babyBlue"%string := circle ]}
              ∅ ∅ ∅ ∅
              {| Avatar.size := None; Avatar.className := None;
                 Avatar.style := None; Avatar.background := None;
                 Avatar.skin := None; Avatar.tshirt := None;
                 Avatar.expression := None; Avatar.hair := None |}
            = Avatar.Elem "svg" attrs [defs; circle; group].
Proof.
  cbv zeta. split; [reflexivity|]. split; [reflexivity|].
  exists (lit "<svg width=" ++ [34] ++ lit "48" ++ [34]
          ++ lit " height=" ++ [34] ++ lit "48" ++ [34]
          ++ lit " viewBox=" ++ [34] ++ lit "0 0 474 474" ++ [34]
          ++ lit " fill=" ++ [34] ++ lit "none" ++ [34]
          ++ lit " xmlns=" ++ [34] ++ lit "http://www.w3.org/2000/svg" ++ [34]
          ++ lit "><defs><clipPath id=" ++ [34] ++ lit "avatarClip" ++ [34]
          ++ lit "><circle cx=" ++ [34] ++ lit "237" ++ [34]
          ++ lit " cy=" ++ [34] ++ lit "237" ++ [34]
          ++ lit " r=" ++ [34] ++ lit "237" ++ [34]
          ++ lit "/></clipPath></defs>").
  exists (lit "<g clip-path=" ++ [34] ++ lit "url(#avatarClip)" ++ [34]
          ++ lit ">" ++ lit "<rect/>" ++ lit "<path d='M0 0'/>" ++ [0x263A]
          ++ lit "</g></svg>").
  split; [exact eq_refl|]. split; [exact eq_refl|].
  eexists _, _, _. reflexivity.
Qed.

(** A lone surrogate is not Unicode text: [encodeURIComponent] throws
    on it and [Buffer.from] replaces it by U+FFFD. *)
Example toBase64_lone_surrogate :
  ExportUtils.toBase64 browserHost [0xD800] = Throw URIError
  /\ bufferFromUtf8 [0xD800] = [0xEF; 0xBF; 0xBD].
Proof. split; reflexivity. Qed.

(** ** Browser-only functions *)

Section ExportProperties.

Variable objectPrototype : gmap string string.

Variables backgroundSvg skinSvg tshirtSvg expressionSvg hairSvg
  : gmap string jsstring.

Abbreviation generatePngBase64 :=
  (ExportUtils.generatePngBase64
     objectPrototype backgroundSvg skinSvg tshirtSvg expressionSvg hairSvg).
Abbreviation downloadSvg :=
  (ExportUtils.downloadSvg
     objectPrototype backgroundSvg skinSvg tshirtSvg expressionSvg hairSvg).
Abbreviation downloadPng :=
  (ExportUtils.downloadPng
     objectPrototype backgroundSvg skinSvg tshirtSvg expressionSvg hairSvg).

(** C6.  Where [window] is undefined, [generatePngBase64] and
    [downloadPng] reject and [downloadSvg] throws, each with its own
    fixed message, whatever the configuration, size, file name and the
    rest of the host; all three test the same capability first, and the
    world is left exactly as it was: nothing allocated, nothing
    recorded. *)
Theorem no_window_fails_without_effect (h : Host)
  (config : PartialConfig) (size : number) (filename : jsstring) (w : World) :
  windowDefined h = false ->
  generatePngBase64 h config size w
  = (Ok (Rejected
           (Error "generatePngBase64 is only available in browser environment")),
     w)
  /\ downloadSvg h config filename w
     = (Throw (Error "downloadSvg is only available in browser environment"),
        w)
  /\ downloadPng h config size filename w
     = (Ok (Rejected
              (Error "downloadPng is only available in browser environment")),
        w).
Proof.
  intros Hw.
  unfold ExportUtils.generatePngBase64, ExportUtils.downloadSvg,
    ExportUtils.downloadPng.
  rewrite Hw. cbn [negb]. repeat apply conj; reflexivity.
Qed.

End ExportProperties.

Lemma no_window_fails_without_effect_witness :
  windowDefined nodeHost = false
  /\ ExportUtils.downloadSvg v8ObjectPrototype ∅ ∅ ∅ ∅ ∅
        nodeHost ∅ (lit "avatar.svg") emptyWorld
     = (Throw (Error "downloadSvg is only available in browser environment"),
        emptyWorld).
Proof.
  split; [reflexivity|].
  exact (proj1 (proj2 (no_window_fails_without_effect v8ObjectPrototype ∅ ∅ ∅ ∅ ∅
        nodeHost ∅ ExportUtils.defaultSize
                         (lit "avatar.svg") emptyWorld eq_refl))).
Defined.

Section ReleaseProperties.

Variable objectPrototype : gmap string string.

Variables backgroundSvg skinSvg tshirtSvg expressionSvg hairSvg
  : gmap string jsstring.

Abbreviation downloadSvg :=
  (ExportUtils.downloadSvg
     objectPrototype backgroundSvg skinSvg tshirtSvg expressionSvg hairSvg).

Lemma filter_fresh (u : nat) (l : list nat) :
  Forall (fun v => (v < u)%nat) l ->
  List.filter (fun v => negb (Nat.eqb v u)) l = l.
Proof.
  induction 1 as [|v l Hv _ IH]; [reflexivity|].
  cbn. destruct (Nat.eqb_spec v u) as [->|_]; [lia|].
  cbn. by rewrite IH.
Qed.

Ltac run_host :=
  unfold createObjectURL, appendChild, click, removeChild, revokeObjectURL,
    create, logEffect, step, hostCalls, throw;
  unfold mbind, mret, M_bind, M_ret;
  cbn [fst snd objectUrls nextHandle body history List.filter].

(** C7, as the code has it.  When the calls between the allocation of
    the object URL and its release (creating the anchor, appending it,
    clicking it, removing it) and the release itself return normally,
    the live object URLs after [downloadSvg] are those from before the
    call; and when the allocation succeeds too, [downloadSvg] returns
    normally with the handle it allocated revoked as its last effect. *)
Theorem downloadSvg_releases_when_steps_return (h : Host)
  (config : PartialConfig) (filename : jsstring) (w : World) :
  windowDefined h = true ->
  throws h CreateElement = None ->
  throws h AppendChild = None ->
  throws h Click = None ->
  throws h RemoveChild = None ->
  throws h RevokeObjectURL = None ->
  handlesInUse w ->
  let out := downloadSvg h config filename w in
  objectUrls out.2 = objectUrls w
  /\ (throws h NewBlob = None -> throws h CreateObjectURL = None ->
      out.1 = Ok tt
      /\ hd_error (history out.2) = Some (Revoked (nextHandle w))).
Proof.
  intros Hw He Ha Hk Hr Hv Hin out. subst out.
  unfold ExportUtils.downloadSvg. rewrite Hw. cbn [negb].
  generalize (ExportUtils.generateSvg objectPrototype backgroundSvg skinSvg tshirtSvg
                expressionSvg hairSvg config ExportUtils.defaultSize).
  intros svg. run_host.
  destruct (throws h NewBlob) as [e|]; [by split|].
  cbn [fst snd objectUrls nextHandle body history].
  destruct (throws h CreateObjectURL) as [e|]; [by split|].
  rewrite He, Ha, Hk, Hr, Hv.
  cbn [fst snd objectUrls nextHandle body history List.filter].
  rewrite Nat.eqb_refl. cbn [negb].
  rewrite (filter_fresh _ _ Hin). by split.
Qed.

(** The other half: once the object URL is allocated, a throw from any
    later call leaves [downloadSvg] with the handle still live. *)
Lemma downloadSvg_leaks_when_a_step_throws (h : Host)
  (config : PartialConfig) (filename : jsstring) (w : World) :
  windowDefined h = true ->
  throws h NewBlob = None ->
  throws h CreateObjectURL = None ->
  is_Some (throws h CreateElement) \/ is_Some (throws h AppendChild)
  \/ is_Some (throws h Click) \/ is_Some (throws h RemoveChild)
  \/ is_Some (throws h RevokeObjectURL) ->
  nextHandle w ∈ objectUrls (downloadSvg h config filename w).2.
Proof.
  intros Hw Hb Hc Hthrow.
  unfold ExportUtils.downloadSvg. rewrite Hw. cbn [negb].
  generalize (ExportUtils.generateSvg objectPrototype backgroundSvg skinSvg tshirtSvg
                expressionSvg hairSvg config ExportUtils.defaultSize).
  intros svg. run_host. rewrite Hb.
  cbn [fst snd objectUrls nextHandle body history]. rewrite Hc.
  cbn [fst snd objectUrls nextHandle body history].
  destruct (throws h CreateElement) as [e|]; [by left|].
  cbn [fst snd objectUrls nextHandle body history].
  destruct (throws h AppendChild) as [e|]; [by left|].
  cbn [fst snd objectUrls nextHandle body history].
  destruct (throws h Click) as [e|]; [by left|].
  cbn [fst snd objectUrls nextHandle body history].
  destruct (throws h RemoveChild) as [e|]; [by left|].
  cbn [fst snd objectUrls nextHandle body history].
  destruct (throws h RevokeObjectURL) as [e|]; [by left|].
  destruct Hthrow as [H|[H|[H|[H|H]]]]; by destruct H.
Qed.

End ReleaseProperties.

Lemma downloadSvg_releases_when_steps_return_witness :
  windowDefined browserHost = true
  /\ handlesInUse emptyWorld
  /\ objectUrls
       (ExportUtils.downloadSvg v8ObjectPrototype ∅ ∅ ∅ ∅ ∅
             browserHost ∅ (lit "avatar.svg")
          emptyWorld).2 = [].
Proof.
  assert (Hin : handlesInUse emptyWorld) by (apply Forall_nil_2).
  split; [reflexivity|]. split; [exact Hin|].
  exact (proj1
    (downloadSvg_releases_when_steps_return v8ObjectPrototype ∅ ∅ ∅ ∅ ∅
          browserHost ∅
       (lit "avatar.svg") emptyWorld eq_refl eq_refl eq_refl eq_refl eq_refl
       eq_refl Hin)).
Defined.

(** C7, as the specification has it, fails: in a document without a
    body [appendChild] throws, the exception leaves [downloadSvg], and
    the object URL allocated just before stays live; no release was
    attempted. *)
Lemma downloadSvg_leaks_when_append_throws :
  let out :=
    ExportUtils.downloadSvg v8ObjectPrototype ∅ ∅ ∅ ∅ ∅
          headScriptHost ∅ (lit "avatar.svg")
      emptyWorld in
  out.1 = Throw (TypeError "Cannot read properties of null (reading 'appendChild')")
  /\ objectUrls out.2 = [0%nat]
  /\ history out.2
     = [Created CreateElement;
        Allocated 0 (ExportUtils.generateSvg v8ObjectPrototype ∅ ∅ ∅ ∅ ∅ ∅
           ExportUtils.defaultSize) "image/svg+xml";
        Created NewBlob]
  /\ ~ In (Revoked 0) (history out.2).
Proof.
  cbv zeta. repeat apply conj.
  - reflexivity.
  - reflexivity.
  - reflexivity.
  - intros [H|[H|[H|[]]]]; discriminate H.
Qed.

(** ** The picker *)

Section PickerProperties.

Import AvatarPicker.

(** C8.  [updateConfig key val] leaves a configuration that holds [val]
    at [key] and what the previous one held everywhere else, with the
    same set of keys when [key] is an attribute the previous one had;
    a registered callback is called exactly once, with that whole
    configuration, and with no callback nothing is called. *)
Theorem updateConfig_replaces_one_attribute (p : Props) (s : Picker)
  (key val : string) :
  let out := updateConfig p s key val in
  config out.1 !! key = Some val
  /\ (forall k, k <> key -> config out.1 !! k = config s !! k)
  /\ (key ∈ dom (config s) -> dom (config out.1) = dom (config s))
  /\ (forall f, onChange p = Some f ->
        out.2 = [{| callee := f; argument := config out.1 |}])
  /\ (onChange p = None -> out.2 = []).
Proof.
  intros out. subst out. unfold updateConfig, notify. cbn [fst snd config].
  repeat apply conj.
  - apply lookup_insert_eq.
  - intros k Hk. by apply lookup_insert_ne.
  - intros Hin. rewrite dom_insert_L. by apply subseteq_union_1_L, singleton_subseteq_l.
  - by intros f ->.
  - by intros ->.
Qed.

Lemma rerender_without_value (p : Props) (s : Picker) :
  value p = None -> config (rerender p s) = config s.
Proof.
  intros Hv. unfold rerender. rewrite Hv.
  by destruct (sameValue (syncedWith s) None).
Qed.

Lemma rerender_changes_only_to_value (p : Props) (s : Picker) :
  config (rerender p s) <> config s ->
  exists o, value p = Some o /\ config (rerender p s) = fields o.
Proof.
  intros Hne. destruct (value p) as [o|] eqn:Hv.
  - exists o. split; [reflexivity|].
    unfold rerender in *. rewrite Hv in *.
    destruct (sameValue (syncedWith s) (Some o)); [done|reflexivity].
  - by rewrite rerender_without_value in Hne.
Qed.

(** C10.  A picker mounted with the external configuration [A] and then
    rendered without a value keeps [A]; it does not fall back to the
    default configuration.  In general a render without a value never
    changes the state, and a render changes the state only to the
    external configuration it is given. *)
Theorem value_removed_keeps_configuration (A : ConfigObject)
  (cb cb' : option nat) :
  let mounted := mount {| value := Some A; onChange := cb |} in
  let after := rerender {| value := None; onChange := cb' |} mounted in
  config mounted = fields A
  /\ config after = fields A
  /\ (fields A <> Avatar.defaultConfig -> config after <> Avatar.defaultConfig)
  /\ (forall p s, value p = None -> config (rerender p s) = config s)
  /\ (forall p s, config (rerender p s) <> config s ->
        exists o, value p = Some o /\ config (rerender p s) = fields o).
Proof.
  intros mounted after.
  assert (Hm : config mounted = fields A) by reflexivity.
  assert (Ha : config after = fields A).
  { subst after. by rewrite rerender_without_value. }
  repeat apply conj; try assumption.
  - by rewrite Ha.
  - apply rerender_without_value.
  - apply rerender_changes_only_to_value.
Qed.

(** [generateRandomConfig]: with every index in range, each attribute
    holds the element of its list at the index drawn for it, so it is
    a legal value, and every legal value is reached by some index. *)
Lemma randomItem_in_range (i : nat) (arr : list string) :
  (i < length arr)%nat -> exists v, Avatar.randomItem i arr = Some v /\ v ∈ arr.
Proof.
  intros Hi. destruct (lookup_lt_is_Some_2 arr i Hi) as [v Hv].
  exists v. split; [exact Hv|]. by eapply list_elem_of_lookup_2.
Qed.

Lemma randomItem_reaches (v : string) (arr : list string) :
  v ∈ arr -> exists i, (i < length arr)%nat /\ Avatar.randomItem i arr = Some v.
Proof.
  intros Hv. apply list_elem_of_lookup_1 in Hv as [i Hi].
  exists i. split; [by eapply lookup_lt_Some|exact Hi].
Qed.

(** [handleRandom] puts the generated configuration in place of the
    previous one and calls a registered callback once with it. *)
Lemma handleRandom_replaces_and_notifies (p : Props) (s : Picker)
  (d : Avatar.Draws) :
  let out := handleRandom p s d in
  config out.1 = Avatar.generateRandomConfig d
  /\ (forall f, onChange p = Some f ->
        out.2 = [{| callee := f; argument := Avatar.generateRandomConfig d |}])
  /\ (onChange p = None -> out.2 = []).
Proof.
  intros out. subst out. unfold handleRandom, notify. cbn [fst snd config].
  repeat apply conj; [reflexivity| by intros f -> | by intros ->].
Qed.

(** The controlled-mode scenario of the test suite: rendered with the
    default configuration, rendered again with another one, then a
    background is chosen; the callback receives the second
    configuration with the new background. *)
Example picker_syncs_then_updates :
  let first := {| address := 0; fields := Avatar.defaultConfig |} in
  let second :=
    {| address := 1;
       fields := list_to_map
         [("background", "peach"); ("skin", "softPeach"); ("tshirt", "pink");
          ("expression", "happy"); ("hair", "bob")]%string |} in
  let s1 := mount {| value := Some first; onChange := Some 7%nat |} in
  let s2 := rerender {| value := Some second; onChange := Some 7%nat |} s1 in
  (updateConfig {| value := Some second; onChange := Some 7%nat |} s2
     "background" "coralRed").2
  = [{| callee := 7;
        argument := list_to_map
          [("background", "coralRed"); ("skin", "softPeach");
           ("tshirt", "pink"); ("expression", "happy");
           ("hair", "bob")]%string |}].
Proof. by vm_compute. Qed.

End PickerProperties.

(** * Further properties *)

(** ** The variant model and random configurations *)

Lemma options_NoDup (k : string) : NoDup (optionsOf k).
Proof.
  unfold optionsOf.
  repeat match goal with
  | |- context [String.eqb ?a ?b] => destruct (String.eqb a b)
  end;
    apply (bool_decide_unpack _); vm_compute; exact I.
Qed.

Lemma keys_cases (k : string) :
  k ∈ Types.keys ->
  k = "background"%string \/ k = "skin"%string \/ k = "tshirt"%string
  \/ k = "expression"%string \/ k = "hair"%string.
Proof.
  unfold Types.keys. rewrite !elem_of_union, !elem_of_singleton. tauto.
Qed.

Section RandomConfig.

Import Avatar.

Lemma generateRandomConfig_fields (d : Draws) :
  generateRandomConfig d !! "background"%string
  = Types.BACKGROUNDS !! drawBackground d
  /\ generateRandomConfig d !! "skin"%string = Types.SKINS !! drawSkin d
  /\ generateRandomConfig d !! "tshirt"%string = Types.TSHIRTS !! drawTshirt d
  /\ generateRandomConfig d !! "expression"%string
     = Types.EXPRESSIONS !! drawExpression d
  /\ generateRandomConfig d !! "hair"%string = Types.HAIRS !! drawHair d.
Proof.
  unfold generateRandomConfig, object, randomItem.
  destruct (Types.BACKGROUNDS !! drawBackground d),
    (Types.SKINS !! drawSkin d), (Types.TSHIRTS !! drawTshirt d),
    (Types.EXPRESSIONS !! drawExpression d), (Types.HAIRS !! drawHair d);
    repeat apply conj; reflexivity.
Qed.

Lemma generateRandomConfig_other_keys (d : Draws) (k : string) :
  k ∉ Types.keys -> generateRandomConfig d !! k = None.
Proof.
  intros Hk. apply not_elem_of_dom. intros Hin. apply Hk.
  revert Hin. unfold generateRandomConfig, object, randomItem.
  destruct (Types.BACKGROUNDS !! drawBackground d),
    (Types.SKINS !! drawSkin d), (Types.TSHIRTS !! drawTshirt d),
    (Types.EXPRESSIONS !! drawExpression d), (Types.HAIRS !! drawHair d);
    cbn [omap list_omap fmap option_fmap option_map fst snd];
    rewrite dom_list_to_map_L; cbn [fmap list_fmap fst list_to_set];
    unfold Types.keys;
    rewrite ?elem_of_union, ?elem_of_singleton, ?elem_of_empty; tauto.
Qed.

Lemma generateRandomConfig_lookup (d : Draws) (k : string) (v : string) :
  generateRandomConfig d !! k = Some v -> v ∈ optionsOf k.
Proof.
  intros Hv.
  destruct (decide (k ∈ Types.keys)) as [Hk|Hk].
  - destruct (generateRandomConfig_fields d) as (Hb & Hs & Ht & He & Hh).
    apply keys_cases in Hk as [-> | [-> | [-> | [-> | ->]]]];
      [rewrite Hb in Hv|rewrite Hs in Hv|rewrite Ht in Hv|rewrite He in Hv
      |rewrite Hh in Hv];
      by apply list_elem_of_lookup_2 in Hv.
  - by rewrite generateRandomConfig_other_keys in Hv.
Qed.

(** A key is missing from the result exactly when its index is past
    the end of its list. *)
Lemma generateRandomConfig_dom (d : Draws) :
  dom (generateRandomConfig d) = Types.keys <-> drawsInRange d.
Proof.
  destruct (generateRandomConfig_fields d) as (Hb & Hs & Ht & He & Hh).
  unfold drawsInRange. rewrite <- !lookup_lt_is_Some.
  rewrite <- Hb, <- Hs, <- Ht, <- He, <- Hh. rewrite <- !elem_of_dom.
  split.
  - intros ->. unfold Types.keys.
    rewrite ?elem_of_union, ?elem_of_singleton. tauto.
  - intros (H1 & H2 & H3 & H4 & H5). apply set_eq. intros k. split.
    + intros Hk. destruct (decide (k ∈ Types.keys)) as [|Hn]; [done|].
      apply elem_of_dom in Hk as [v Hv].
      by rewrite generateRandomConfig_other_keys in Hv.
    + intros [-> | [-> | [-> | [-> | ->]]]]%keys_cases; assumption.
Qed.

Lemma generateRandomConfig_legal (d : Draws) :
  drawsInRange d -> isAvatarConfig (generateRandomConfig d).
Proof.
  intros Hd. split; [by apply generateRandomConfig_dom|].
  apply generateRandomConfig_lookup.
Qed.

(** [generateRandomConfig] returns a complete configuration, each key
    holding a value of its own list, exactly when every index drawn is
    an index of its list; an index past the end leaves its key
    [undefined]. *)
Theorem generateRandomConfig_legal_iff (d : Draws) :
  isAvatarConfig (generateRandomConfig d) <-> drawsInRange d.
Proof.
  split.
  - intros [Hdom _]. by apply generateRandomConfig_dom.
  - apply generateRandomConfig_legal.
Qed.

(** Every complete configuration is the result of
    [generateRandomConfig] for some indices in range: no combination of
    variants is out of its reach. *)
Theorem generateRandomConfig_reaches (c : gmap string string) :
  isAvatarConfig c -> exists d, drawsInRange d /\ generateRandomConfig d = c.
Proof.
  intros [Hdom Hval].
  assert (Hget : forall k, k ∈ Types.keys ->
            exists v i, c !! k = Some v /\ optionsOf k !! i = Some v).
  { intros k Hk. rewrite <- Hdom in Hk. apply elem_of_dom in Hk as [v Hv].
    destruct (list_elem_of_lookup_1 _ _ (Hval _ _ Hv)) as [i Hi].
    by exists v, i. }
  destruct (Hget "background"%string) as (vb & ib & Hcb & Hib);
    [by vm_compute|].
  destruct (Hget "skin"%string) as (vs & is_ & Hcs & His); [by vm_compute|].
  destruct (Hget "tshirt"%string) as (vt & it & Hct & Hit); [by vm_compute|].
  destruct (Hget "expression"%string) as (ve & ie & Hce & Hie);
    [by vm_compute|].
  destruct (Hget "hair"%string) as (vh & ih & Hch & Hih); [by vm_compute|].
  change (optionsOf "background") with Types.BACKGROUNDS in Hib.
  change (optionsOf "skin") with Types.SKINS in His.
  change (optionsOf "tshirt") with Types.TSHIRTS in Hit.
  change (optionsOf "expression") with Types.EXPRESSIONS in Hie.
  change (optionsOf "hair") with Types.HAIRS in Hih.
  set (d := {| drawBackground := ib; drawSkin := is_; drawTshirt := it;
               drawExpression := ie; drawHair := ih |}).
  exists d.
  assert (Hr : drawsInRange d).
  { unfold drawsInRange, d.
    cbn [drawBackground drawSkin drawTshirt drawExpression drawHair].
    repeat apply conj; eapply lookup_lt_Some; eassumption. }
  split; [exact Hr|].
  apply map_eq. intros k.
  destruct (decide (k ∈ Types.keys)) as [Hk|Hk].
  - destruct (generateRandomConfig_fields d) as (Hb & Hs & Ht & He & Hh).
    subst d.
    cbn [drawBackground drawSkin drawTshirt drawExpression drawHair]
      in Hb, Hs, Ht, He, Hh.
    apply keys_cases in Hk as [-> | [-> | [-> | [-> | ->]]]]; congruence.
  - rewrite generateRandomConfig_other_keys by exact Hk.
    symmetry. apply not_elem_of_dom. by rewrite Hdom.
Qed.

(** Different indices in range give different configurations: the
    lists hold no value twice, so a configuration tells the indices
    that produced it. *)
Theorem generateRandomConfig_injective (d d' : Draws) :
  drawsInRange d -> drawsInRange d' ->
  generateRandomConfig d = generateRandomConfig d' -> d = d'.
Proof.
  intros (H1 & H2 & H3 & H4 & H5) (H1' & H2' & H3' & H4' & H5') Heq.
  destruct (generateRandomConfig_fields d) as (Hb & Hs & Ht & He & Hh).
  destruct (generateRandomConfig_fields d') as (Hb' & Hs' & Ht' & He' & Hh').
  rewrite Heq in Hb, Hs, Ht, He, Hh.
  rewrite Hb in Hb'. rewrite Hs in Hs'. rewrite Ht in Ht'. rewrite He in He'.
  rewrite Hh in Hh'.
  pose proof (options_NoDup "background") as Nb.
  pose proof (options_NoDup "skin") as Ns.
  pose proof (options_NoDup "tshirt") as Nt.
  pose proof (options_NoDup "expression") as Ne.
  pose proof (options_NoDup "hair") as Nh.
  assert (Hidx : forall (l : list string) (i j : nat),
            NoDup l -> (i < length l)%nat -> l !! i = l !! j -> i = j).
  { intros l i j Hl Hi Hij. destruct (lookup_lt_is_Some_2 _ _ Hi) as [v Hv].
    rewrite Hv in Hij. by eapply NoDup_lookup. }
  destruct d, d'.
  cbn [drawBackground drawSkin drawTshirt drawExpression drawHair] in *.
  f_equal.
  - exact (Hidx Types.BACKGROUNDS _ _ Nb H1 Hb').
  - exact (Hidx Types.SKINS _ _ Ns H2 Hs').
  - exact (Hidx Types.TSHIRTS _ _ Nt H3 Ht').
  - exact (Hidx Types.EXPRESSIONS _ _ Ne H4 He').
  - exact (Hidx Types.HAIRS _ _ Nh H5 Hh').
Qed.

End RandomConfig.

Lemma generateRandomConfig_reaches_witness :
  isAvatarConfig (Avatar.generateRandomConfig firstDraws)
  /\ exists d, drawsInRange d
       /\ Avatar.generateRandomConfig d = Avatar.generateRandomConfig firstDraws.
Proof.
  assert (H : isAvatarConfig (Avatar.generateRandomConfig firstDraws)).
  { apply generateRandomConfig_legal. vm_compute. repeat apply conj; lia. }
  split; [exact H|].
  exact (generateRandomConfig_reaches (Avatar.generateRandomConfig firstDraws) H).
Defined.

Lemma generateRandomConfig_injective_witness :
  drawsInRange lastDraws
  /\ Avatar.generateRandomConfig lastDraws = Avatar.generateRandomConfig lastDraws
  /\ lastDraws = lastDraws.
Proof.
  assert (H : drawsInRange lastDraws)
    by (vm_compute; repeat apply conj; lia).
  split; [exact H|]. split; [reflexivity|].
  exact (generateRandomConfig_injective lastDraws lastDraws H H eq_refl).
Defined.

(** ** The markup depends on the five merged attributes only *)

Section MarkupReads.

Variable objectPrototype : gmap string string.

Variables backgroundSvg skinSvg tshirtSvg expressionSvg hairSvg
  : gmap string jsstring.

#[local] Abbreviation generateSvg :=
  (ExportUtils.generateSvg objectPrototype
     backgroundSvg skinSvg tshirtSvg expressionSvg hairSvg).

Lemma spread_idempotent {V} (d c : gmap string V) :
  spread d (spread d c) = spread d c.
Proof.
  unfold spread. apply map_eq. intros k.
  rewrite !lookup_union. by destruct (c !! k), (d !! k).
Qed.

Lemma spread_insert_other {V} (d c : gmap string V) (k k' : string) (v : V) :
  k <> k' -> spread d (<[k := v]> c) !! k' = spread d c !! k'.
Proof.
  intros Hk. unfold spread. by rewrite !lookup_union, lookup_insert_ne.
Qed.

(** [generateSvg] reads its argument through the five attributes of
    the merged configuration and nothing else: two arguments that
    agree on them after the merge give the same markup; so passing the
    defaults explicitly changes nothing, and neither does a property
    under any other key, whatever it holds. *)
Theorem generateSvg_reads_merged_attributes :
  (forall (config config' : PartialConfig) (size : number),
     (forall k, k ∈ Types.keys ->
        spread (asPartial ExportUtils.defaultConfig) config !! k
        = spread (asPartial ExportUtils.defaultConfig) config' !! k) ->
     generateSvg config size = generateSvg config' size)
  /\ (forall (config : PartialConfig) (size : number),
        generateSvg (spread (asPartial ExportUtils.defaultConfig) config) size
        = generateSvg config size)
  /\ (forall (config : PartialConfig) (k : string) (v : option string)
             (size : number),
        k ∉ Types.keys ->
        generateSvg (<[k := v]> config) size = generateSvg config size).
Proof.
  assert (Hmain : forall (config config' : PartialConfig) (size : number),
     (forall k, k ∈ Types.keys ->
        spread (asPartial ExportUtils.defaultConfig) config !! k
        = spread (asPartial ExportUtils.defaultConfig) config' !! k) ->
     generateSvg config size = generateSvg config' size).
  { intros config config' size H. unfold ExportUtils.generateSvg, read.
    rewrite !H by (apply (bool_decide_unpack _); vm_compute; exact I).
    reflexivity. }
  repeat apply conj.
  - exact Hmain.
  - intros config size. apply Hmain. intros k _.
    by rewrite spread_idempotent.
  - intros config k v size Hk. apply Hmain. intros k' Hk'.
    apply spread_insert_other. intros ->. by apply Hk.
Qed.

(** A lookup depends on the property key alone. *)
Lemma lookupOrEmpty_key (table : gmap string jsstring) (v : option string) :
  lookupOrEmpty objectPrototype table v
  = lookupOrEmpty objectPrototype table (Some (propertyKey v)).
Proof. reflexivity. Qed.

(** The layer of a value, read off the table and the prototype. *)
Lemma lookupOrEmpty_layer (table : gmap string jsstring) (v : string) :
  match table !! v with
  | Some f => lookupOrEmpty objectPrototype table (Some v) = f
  | None =>
    match objectPrototype !! v with
    | Some text => lookupOrEmpty objectPrototype table (Some v) = lit text
    | None => lookupOrEmpty objectPrototype table (Some v) = []
    end
  end.
Proof.
  unfold lookupOrEmpty. change (propertyKey (Some v)) with v.
  destruct (table !! v); [reflexivity|].
  by destruct (objectPrototype !! v).
Qed.

(** The markup, given the property key of each layer. *)
Lemma generateSvg_by_keys (config : PartialConfig) (size : number)
  (kb kt ks kh ke : string) :
  let merged := spread (asPartial ExportUtils.defaultConfig) config in
  propertyKey (read merged "background") = kb ->
  propertyKey (read merged "tshirt") = kt ->
  propertyKey (read merged "skin") = ks ->
  propertyKey (read merged "hair") = kh ->
  propertyKey (read merged "expression") = ke ->
  generateSvg config size
  = lit "<svg width=" ++ [34] ++ NumberToString size ++ [34]
    ++ lit " height=" ++ [34] ++ NumberToString size ++ [34]
    ++ lit " viewBox=" ++ [34] ++ lit "0 0 474 474" ++ [34]
    ++ lit " fill=" ++ [34] ++ lit "none" ++ [34]
    ++ lit " xmlns=" ++ [34] ++ lit "http://www.w3.org/2000/svg" ++ [34]
    ++ lit "><defs><clipPath id=" ++ [34] ++ lit "avatarClip" ++ [34]
    ++ lit "><circle cx=" ++ [34] ++ lit "237" ++ [34]
    ++ lit " cy=" ++ [34] ++ lit "237" ++ [34]
    ++ lit " r=" ++ [34] ++ lit "237" ++ [34]
    ++ lit "/></clipPath>" ++ lit "</defs>"
    ++ lookupOrEmpty objectPrototype backgroundSvg (Some kb)
    ++ lit "<g clip-path=" ++ [34] ++ lit "url(#avatarClip)" ++ [34] ++ lit ">"
    ++ lookupOrEmpty objectPrototype tshirtSvg (Some kt)
    ++ lookupOrEmpty objectPrototype skinSvg (Some ks)
    ++ lookupOrEmpty objectPrototype hairSvg (Some kh)
    ++ lookupOrEmpty objectPrototype expressionSvg (Some ke)
    ++ lit "</g></svg>".
Proof.
  intros merged Hb Ht Hs Hh He. rewrite generateSvg_layers. fold merged.
  rewrite !(lookupOrEmpty_key _ (read _ _)), Hb, Ht, Hs, Hh, He.
  rewrite <- ?app_assoc. reflexivity.
Qed.

(** The five property keys of a configuration that gives one
    attribute, and those of the empty configuration. *)
Lemma single_key (k v k' d : string) :
  ExportUtils.defaultConfig !! k' = Some d ->
  propertyKey
    (read (spread (asPartial ExportUtils.defaultConfig) {[ k := Some v ]}) k')
  = if String.eqb k k' then v else d.
Proof.
  intros Hd. unfold read, spread, asPartial.
  rewrite lookup_union, lookup_fmap, Hd.
  destruct (String.eqb_spec k k') as [->|Hne].
  - by rewrite lookup_singleton_eq.
  - by rewrite lookup_singleton_ne.
Qed.

Lemma empty_key (k' d : string) :
  ExportUtils.defaultConfig !! k' = Some d ->
  propertyKey (read (spread (asPartial ExportUtils.defaultConfig) ∅) k') = d.
Proof.
  intros Hd. unfold read, spread, asPartial.
  by rewrite lookup_union, lookup_fmap, Hd, lookup_empty.
Qed.

(** The markup of a configuration that gives the attribute [k] the
    value [v], and that of the empty configuration, by their keys. *)
Lemma generateSvg_single (k v : string) (size : number) :
  generateSvg {[ k := Some v ]} size
  = lit "<svg width=" ++ [34] ++ NumberToString size ++ [34]
    ++ lit " height=" ++ [34] ++ NumberToString size ++ [34]
    ++ lit " viewBox=" ++ [34] ++ lit "0 0 474 474" ++ [34]
    ++ lit " fill=" ++ [34] ++ lit "none" ++ [34]
    ++ lit " xmlns=" ++ [34] ++ lit "http://www.w3.org/2000/svg" ++ [34]
    ++ lit "><defs><clipPath id=" ++ [34] ++ lit "avatarClip" ++ [34]
    ++ lit "><circle cx=" ++ [34] ++ lit "237" ++ [34]
    ++ lit " cy=" ++ [34] ++ lit "237" ++ [34]
    ++ lit " r=" ++ [34] ++ lit "237" ++ [34]
    ++ lit "/></clipPath>" ++ lit "</defs>"
    ++ lookupOrEmpty objectPrototype backgroundSvg
         (Some (if String.eqb k "background" then v else "babyBlue"%string))
    ++ lit "<g clip-path=" ++ [34] ++ lit "url(#avatarClip)" ++ [34] ++ lit ">"
    ++ lookupOrEmpty objectPrototype tshirtSvg
         (Some (if String.eqb k "tshirt" then v else "orange"%string))
    ++ lookupOrEmpty objectPrototype skinSvg
         (Some (if String.eqb k "skin" then v else "softPeach"%string))
    ++ lookupOrEmpty objectPrototype hairSvg
         (Some (if String.eqb k "hair" then v else "shortBuzz"%string))
    ++ lookupOrEmpty objectPrototype expressionSvg
         (Some (if String.eqb k "expression" then v else "happy"%string))
    ++ lit "</g></svg>".
Proof.
  destruct defaultConfig_values as (Hb & Hs & Ht & He & Hh).
  apply generateSvg_by_keys; by apply single_key.
Qed.

Lemma generateSvg_empty (size : number) :
  generateSvg ∅ size
  = lit "<svg width=" ++ [34] ++ NumberToString size ++ [34]
    ++ lit " height=" ++ [34] ++ NumberToString size ++ [34]
    ++ lit " viewBox=" ++ [34] ++ lit "0 0 474 474" ++ [34]
    ++ lit " fill=" ++ [34] ++ lit "none" ++ [34]
    ++ lit " xmlns=" ++ [34] ++ lit "http://www.w3.org/2000/svg" ++ [34]
    ++ lit "><defs><clipPath id=" ++ [34] ++ lit "avatarClip" ++ [34]
    ++ lit "><circle cx=" ++ [34] ++ lit "237" ++ [34]
    ++ lit " cy=" ++ [34] ++ lit "237" ++ [34]
    ++ lit " r=" ++ [34] ++ lit "237" ++ [34]
    ++ lit "/></clipPath>" ++ lit "</defs>"
    ++ lookupOrEmpty objectPrototype backgroundSvg (Some "babyBlue"%string)
    ++ lit "<g clip-path=" ++ [34] ++ lit "url(#avatarClip)" ++ [34] ++ lit ">"
    ++ lookupOrEmpty objectPrototype tshirtSvg (Some "orange"%string)
    ++ lookupOrEmpty objectPrototype skinSvg (Some "softPeach"%string)
    ++ lookupOrEmpty objectPrototype hairSvg (Some "shortBuzz"%string)
    ++ lookupOrEmpty objectPrototype expressionSvg (Some "happy"%string)
    ++ lit "</g></svg>".
Proof.
  destruct defaultConfig_values as (Hb & Hs & Ht & He & Hh).
  apply generateSvg_by_keys; by apply empty_key.
Qed.

(** A configuration that gives one attribute only changes that
    attribute's layer of the default avatar: the markup before the
    layer and the markup after it are those of [generateSvg({})], and
    the layer itself is what the attribute's table holds for the value
    given (the text of the member of [Object.prototype] that the value
    names, when the table has no entry for it, and nothing without
    either), as the layer of [generateSvg({})] is what the table holds
    for the default's value. *)
Theorem generateSvg_single_override (size : number) :
  let layer (table : gmap string jsstring) (v : string) (text : jsstring)
    : Prop :=
    match table !! v with
    | Some f => text = f
    | None =>
      match objectPrototype !! v with
      | Some inherited => text = lit inherited
      | None => text = []
      end
    end in
  (exists pre post, forall v : string, exists given standard,
     generateSvg {[ "background"%string := Some v ]} size
     = pre ++ given ++ post
     /\ generateSvg ∅ size = pre ++ standard ++ post
     /\ layer backgroundSvg v given
     /\ layer backgroundSvg "babyBlue" standard)
  /\ (exists pre post, forall v : string, exists given standard,
     generateSvg {[ "tshirt"%string := Some v ]} size = pre ++ given ++ post
     /\ generateSvg ∅ size = pre ++ standard ++ post
     /\ layer tshirtSvg v given
     /\ layer tshirtSvg "orange" standard)
  /\ (exists pre post, forall v : string, exists given standard,
     generateSvg {[ "skin"%string := Some v ]} size = pre ++ given ++ post
     /\ generateSvg ∅ size = pre ++ standard ++ post
     /\ layer skinSvg v given
     /\ layer skinSvg "softPeach" standard)
  /\ (exists pre post, forall v : string, exists given standard,
     generateSvg {[ "hair"%string := Some v ]} size = pre ++ given ++ post
     /\ generateSvg ∅ size = pre ++ standard ++ post
     /\ layer hairSvg v given
     /\ layer hairSvg "shortBuzz" standard)
  /\ (exists pre post, forall v : string, exists given standard,
     generateSvg {[ "expression"%string := Some v ]} size
     = pre ++ given ++ post
     /\ generateSvg ∅ size = pre ++ standard ++ post
     /\ layer expressionSvg v given
     /\ layer expressionSvg "happy" standard).
Proof.
  intros layer.
  set (open_ := lit "<svg width=" ++ [34] ++ NumberToString size ++ [34]
    ++ lit " height=" ++ [34] ++ NumberToString size ++ [34]
    ++ lit " viewBox=" ++ [34] ++ lit "0 0 474 474" ++ [34]
    ++ lit " fill=" ++ [34] ++ lit "none" ++ [34]
    ++ lit " xmlns=" ++ [34] ++ lit "http://www.w3.org/2000/svg" ++ [34]
    ++ lit "><defs><clipPath id=" ++ [34] ++ lit "avatarClip" ++ [34]
    ++ lit "><circle cx=" ++ [34] ++ lit "237" ++ [34]
    ++ lit " cy=" ++ [34] ++ lit "237" ++ [34]
    ++ lit " r=" ++ [34] ++ lit "237" ++ [34]
    ++ lit "/></clipPath>" ++ lit "</defs>").
  set (group := lit "<g clip-path=" ++ [34] ++ lit "url(#avatarClip)" ++ [34]
                ++ lit ">").
  set (bg := lookupOrEmpty objectPrototype backgroundSvg (Some "babyBlue"%string)).
  set (ts := lookupOrEmpty objectPrototype tshirtSvg (Some "orange"%string)).
  set (sk := lookupOrEmpty objectPrototype skinSvg (Some "softPeach"%string)).
  set (ha := lookupOrEmpty objectPrototype hairSvg (Some "shortBuzz"%string)).
  set (ex := lookupOrEmpty objectPrototype expressionSvg (Some "happy"%string)).
  repeat apply conj.
  - exists open_, (group ++ ts ++ sk ++ ha ++ ex ++ lit "</g></svg>").
    intros v.
    exists (lookupOrEmpty objectPrototype backgroundSvg (Some v)), bg.
    subst open_ group bg ts sk ha ex layer.
    rewrite generateSvg_single, generateSvg_empty.
    repeat apply conj;
      [rewrite <- ?app_assoc; exact eq_refl..| |]; apply lookupOrEmpty_layer.
  - exists (open_ ++ bg ++ group), (sk ++ ha ++ ex ++ lit "</g></svg>").
    intros v.
    exists (lookupOrEmpty objectPrototype tshirtSvg (Some v)), ts.
    subst open_ group bg ts sk ha ex layer.
    rewrite generateSvg_single, generateSvg_empty.
    repeat apply conj;
      [rewrite <- ?app_assoc; exact eq_refl..| |]; apply lookupOrEmpty_layer.
  - exists (open_ ++ bg ++ group ++ ts), (ha ++ ex ++ lit "</g></svg>").
    intros v.
    exists (lookupOrEmpty objectPrototype skinSvg (Some v)), sk.
    subst open_ group bg ts sk ha ex layer.
    rewrite generateSvg_single, generateSvg_empty.
    repeat apply conj;
      [rewrite <- ?app_assoc; exact eq_refl..| |]; apply lookupOrEmpty_layer.
  - exists (open_ ++ bg ++ group ++ ts ++ sk), (ex ++ lit "</g></svg>").
    intros v.
    exists (lookupOrEmpty objectPrototype hairSvg (Some v)), ha.
    subst open_ group bg ts sk ha ex layer.
    rewrite generateSvg_single, generateSvg_empty.
    repeat apply conj;
      [rewrite <- ?app_assoc; exact eq_refl..| |]; apply lookupOrEmpty_layer.
  - exists (open_ ++ bg ++ group ++ ts ++ sk ++ ha), (lit "</g></svg>").
    intros v.
    exists (lookupOrEmpty objectPrototype expressionSvg (Some v)), ex.
    subst open_ group bg ts sk ha ex layer.
    rewrite generateSvg_single, generateSvg_empty.
    repeat apply conj;
      [rewrite <- ?app_assoc; exact eq_refl..| |]; apply lookupOrEmpty_layer.
Qed.

End MarkupReads.

(** ** Strings that are not Unicode text *)

Lemma not_scalar_surrogate (c : Z) :
  isCodeUnit c = true -> isScalarValue c = false ->
  isLeadingSurrogate c || isTrailingSurrogate c = true.
Proof.
  unfold isCodeUnit, isScalarValue, isLeadingSurrogate, isTrailingSurrogate.
  lia.
Qed.

Lemma surrogate_not_unreserved (c : Z) :
  isLeadingSurrogate c || isTrailingSurrogate c = true ->
  uriUnreserved c = false.
Proof.
  unfold isLeadingSurrogate, isTrailingSurrogate, uriUnreserved. lia.
Qed.

Lemma pair_is_scalar (c d : Z) :
  isLeadingSurrogate c && isTrailingSurrogate d = true ->
  isScalarValue (surrogatePairToCodePoint c d) = true.
Proof.
  unfold isLeadingSurrogate, isTrailingSurrogate, isScalarValue,
    surrogatePairToCodePoint. lia.
Qed.

Lemma rmap_throw {A B} (f : A -> B) (e : exn) : rmap f (Throw e) = Throw e.
Proof. reflexivity. Qed.

(** Rewrites a well-formedness hypothesis on a string of two or more
    units along the case of [codePoints_ind] at hand. *)
Ltac unfold_wf Hw Hp :=
  unfold isWellFormed in Hw;
  first [ rewrite codePoints_pair in Hw by exact Hp
        | rewrite codePoints_single in Hw by exact Hp ];
  cbn [forallb] in Hw.

(** [encodeURIComponent] throws on every string that holds a lone
    surrogate. *)
Lemma encodeURIComponent_lone_surrogate (s : jsstring) :
  forallb isCodeUnit s = true -> isWellFormed s = false ->
  encodeURIComponent s = Throw URIError.
Proof.
  induction s as [|c|c d rest Hp IH|c d rest Hp IH] using codePoints_ind;
    intros Hu Hw.
  - discriminate Hw.
  - cbn [forallb] in Hu. apply andb_prop in Hu as [Hc _].
    unfold isWellFormed in Hw. cbn [codePoints forallb] in Hw.
    rewrite andb_true_r in Hw.
    pose proof (not_scalar_surrogate c Hc Hw) as Hs.
    cbn [encodeURIComponent]. rewrite (surrogate_not_unreserved c Hs).
    destruct (isTrailingSurrogate c); [reflexivity|].
    destruct (isLeadingSurrogate c); [reflexivity|discriminate Hs].
  - cbn [forallb] in Hu. apply andb_prop in Hu as [Hc Hu].
    apply andb_prop in Hu as [Hd Hu].
    unfold_wf Hw Hp. rewrite (pair_is_scalar c d Hp) in Hw.
    cbn [andb] in Hw. fold (isWellFormed rest) in Hw.
    pose proof Hp as [Hlead Htrail]%andb_prop.
    cbn [encodeURIComponent].
    rewrite surrogate_not_unreserved by (by rewrite Hlead).
    replace (isTrailingSurrogate c) with false
      by (unfold isTrailingSurrogate, isLeadingSurrogate in *; lia).
    rewrite Hlead, Htrail, (IH Hu Hw). reflexivity.
  - cbn [forallb] in Hu. apply andb_prop in Hu as [Hc Hu].
    unfold_wf Hw Hp. fold (isWellFormed (d :: rest)) in Hw.
    change (encodeURIComponent (c :: d :: rest)) with
      (if uriUnreserved c then rmap (cons c) (encodeURIComponent (d :: rest))
       else if isTrailingSurrogate c then Throw URIError
       else if isLeadingSurrogate c then
         (if isTrailingSurrogate d
          then rmap (app (flat_map percentEncode
                            (utf8Octets (surrogatePairToCodePoint c d))))
                    (encodeURIComponent rest)
          else Throw URIError)
       else rmap (app (flat_map percentEncode (utf8Octets c)))
                 (encodeURIComponent (d :: rest))).
    destruct (isScalarValue c) eqn:Hsc.
    + cbn [andb] in Hw. rewrite (IH Hu Hw), !rmap_throw.
      destruct (uriUnreserved c); [reflexivity|].
      destruct (isTrailingSurrogate c); [reflexivity|].
      destruct (isLeadingSurrogate c); [|reflexivity].
      by destruct (isTrailingSurrogate d).
    + pose proof (not_scalar_surrogate c Hc Hsc) as Hs.
      rewrite (surrogate_not_unreserved c Hs).
      destruct (isTrailingSurrogate c); [reflexivity|].
      destruct (isLeadingSurrogate c); [|discriminate Hs].
      cbn [andb] in Hp. by rewrite Hp.
Qed.

(** ** The Base64 payload *)

Lemma base64Encode_length (bs : list Z) :
  length (base64Encode bs) = (4 * ((length bs + 2) / 3))%nat.
Proof.
  induction bs as [|a|a b|a b c l IH] using list_ind3.
  - reflexivity.
  - reflexivity.
  - reflexivity.
  - cbn [base64Encode length]. rewrite IH.
    replace (S (S (S (length l))) + 2)%nat with (length l + 2 + 1 * 3)%nat by lia.
    rewrite Nat.div_add by lia. lia.
Qed.

Lemma base64Char_isBase64Char (i : Z) :
  0 <= i < 64 -> isBase64Char (base64Char i) = true.
Proof.
  intros Hi. unfold isBase64Char, base64Char.
  destruct (Z.ltb_spec i 26); [|destruct (Z.ltb_spec i 52);
    [|destruct (Z.ltb_spec i 62); [|destruct (Z.eqb_spec i 62)]]]; lia.
Qed.

Lemma base64Encode_alphabet (bs : list Z) :
  Forall isOctet bs -> forallb isBase64Char (base64Encode bs) = true.
Proof.
  induction bs as [|a|a b|a b c l IH] using list_ind3; intros Hbs.
  - reflexivity.
  - apply Forall_cons_1 in Hbs as [Ha _]. unfold isOctet in Ha.
    cbn [base64Encode forallb].
    rewrite !base64Char_isBase64Char by lia. reflexivity.
  - apply Forall_cons_1 in Hbs as [Ha Hbs].
    apply Forall_cons_1 in Hbs as [Hb _]. unfold isOctet in *.
    cbn [base64Encode forallb].
    rewrite !base64Char_isBase64Char by lia. reflexivity.
  - apply Forall_cons_1 in Hbs as [Ha Hbs].
    apply Forall_cons_1 in Hbs as [Hb Hbs].
    apply Forall_cons_1 in Hbs as [Hc Hl]. unfold isOctet in *.
    cbn [base64Encode forallb].
    rewrite !base64Char_isBase64Char by lia. rewrite (IH Hl). reflexivity.
Qed.

Lemma replaced_is_scalar (cp : Z) :
  isScalarValue (if isScalarValue cp then cp else 0xFFFD) = true.
Proof. by destruct (isScalarValue cp) eqn:E. Qed.

Lemma bufferFromUtf8_octets (s : jsstring) : Forall isOctet (bufferFromUtf8 s).
Proof.
  unfold bufferFromUtf8.
  induction (codePoints s) as [|cp cps IH]; [constructor|].
  cbn [flat_map]. apply Forall_app. split; [|exact IH].
  apply utf8Octets_octets.
  pose proof (replaced_is_scalar cp) as H%isScalarValue_spec. lia.
Qed.

Lemma wellFormed_text (s : jsstring) :
  forallb isCodeUnit s = true -> isWellFormed s = true -> isUnicodeText s = true.
Proof. intros H1 H2. unfold isUnicodeText. by rewrite H1, H2. Qed.


(** [toBase64] by cases: with [btoa] a lone surrogate is a URIError;
    in every other case the result is the Base64 of what
    [Buffer.from(str, 'utf-8')] holds. *)
Lemma toBase64_cases (h : Host) (s : jsstring) :
  forallb isCodeUnit s = true ->
  ExportUtils.toBase64 h s
  = if btoaDefined h && negb (isWellFormed s) then Throw URIError
    else Ok (base64Encode (bufferFromUtf8 s)).
Proof.
  intros Hu. destruct (isWellFormed s) eqn:Hw.
  - rewrite toBase64_utf8 by (by apply wellFormed_text).
    rewrite bufferFromUtf8_codePoints by exact Hw.
    by rewrite andb_false_r.
  - unfold ExportUtils.toBase64. destruct (btoaDefined h); [|reflexivity].
    by rewrite encodeURIComponent_lone_surrogate.
Qed.


(** For a string of 16-bit code units, [toBase64] throws exactly when
    [btoa] exists and the string holds a lone surrogate; what it throws
    is then the URIError of [encodeURIComponent], never the
    InvalidCharacterError of [btoa].  The branch with [btoa] and the
    [Buffer] branch return the same payload exactly on well-formed
    strings. *)
Theorem toBase64_outcomes (h : Host) (s : jsstring) :
  forallb isCodeUnit s = true ->
  (ExportUtils.toBase64 h s = Throw URIError
   <-> btoaDefined h = true /\ isWellFormed s = false)
  /\ (forall e, ExportUtils.toBase64 h s = Throw e -> e = URIError)
  /\ (forall h', btoaDefined h = true -> btoaDefined h' = false ->
        (ExportUtils.toBase64 h s = ExportUtils.toBase64 h' s
         <-> isWellFormed s = true)).
Proof.
  intros Hu. split; [|split].
  - rewrite (toBase64_cases h s Hu).
    destruct (btoaDefined h), (isWellFormed s); cbn [andb negb];
      intuition congruence.
  - intros e. rewrite (toBase64_cases h s Hu).
    destruct (btoaDefined h && negb (isWellFormed s)); intros [= <-].
    reflexivity.
  - intros h' Hh Hh'.
    rewrite (toBase64_cases h s Hu), (toBase64_cases h' s Hu).
    rewrite Hh, Hh'. destruct (isWellFormed s); cbn [andb negb];
      intuition congruence.
Qed.

Lemma toBase64_outcomes_witness :
  forallb isCodeUnit [0xD800] = true
  /\ ExportUtils.toBase64 browserHost [0xD800] = Throw URIError
  /\ ExportUtils.toBase64 noBtoaHost [0xD800] = Ok (lit "77+9").
Proof.
  split; [reflexivity|]. split; [|reflexivity].
  apply (proj1 (toBase64_outcomes browserHost [0xD800] eq_refl)).
  split; reflexivity.
Defined.

(** The payload [toBase64] returns holds characters of the Base64
    alphabet and padding only, and four of them for every three octets
    of the UTF-8 form of the string, the last group padded. *)
Theorem toBase64_payload_shape (h : Host) (s p : jsstring) :
  forallb isCodeUnit s = true -> ExportUtils.toBase64 h s = Ok p ->
  forallb isBase64Char p = true
  /\ length p = (4 * ((length (bufferFromUtf8 s) + 2) / 3))%nat.
Proof.
  intros Hu Hp. rewrite (toBase64_cases h s Hu) in Hp.
  destruct (btoaDefined h && negb (isWellFormed s)); [discriminate Hp|].
  injection Hp as <-. split.
  - apply base64Encode_alphabet, bufferFromUtf8_octets.
  - apply base64Encode_length.
Qed.

Lemma toBase64_payload_shape_witness :
  forallb isCodeUnit (lit "<svg/>") = true
  /\ ExportUtils.toBase64 browserHost (lit "<svg/>") = Ok (lit "PHN2Zy8+")
  /\ forallb isBase64Char (lit "PHN2Zy8+") = true
  /\ length (lit "PHN2Zy8+")
     = (4 * ((length (bufferFromUtf8 (lit "<svg/>")) + 2) / 3))%nat.
Proof.
  split; [reflexivity|]. split; [reflexivity|].
  exact (toBase64_payload_shape browserHost (lit "<svg/>") (lit "PHN2Zy8+")
           eq_refl eq_refl).
Defined.

(** Two Unicode texts with the same payload are the same text, also
    when one payload was made with [btoa] and the other with
    [Buffer]. *)
Theorem toBase64_injective (h h' : Host) (s t : jsstring) :
  isUnicodeText s = true -> isUnicodeText t = true ->
  ExportUtils.toBase64 h s = ExportUtils.toBase64 h' t -> s = t.
Proof.
  intros Hs Ht. rewrite !toBase64_utf8 by assumption. intros [= Heq].
  destruct (decode_toBase64 s Hs) as [Hs1 Hs2].
  destruct (decode_toBase64 t Ht) as [Ht1 Ht2].
  cbv zeta in *. rewrite Heq in Hs1. rewrite Hs1 in Ht1.
  injection Ht1 as Ho. rewrite Ho in Hs2. congruence.
Qed.

Lemma toBase64_injective_witness :
  isUnicodeText [0xD83D; 0xDE00] = true
  /\ ExportUtils.toBase64 browserHost [0xD83D; 0xDE00]
     = ExportUtils.toBase64 noBtoaHost [0xD83D; 0xDE00]
  /\ [0xD83D; 0xDE00] = [0xD83D; 0xDE00] :> jsstring.
Proof.
  split; [reflexivity|]. split; [reflexivity|].
  exact (toBase64_injective browserHost noBtoaHost [0xD83D; 0xDE00]
           [0xD83D; 0xDE00] eq_refl eq_refl eq_refl).
Defined.

(** ** What the export functions do to the document *)

Section ExportEffects.


Variable objectPrototype : gmap string string.

Variables backgroundSvg skinSvg tshirtSvg expressionSvg hairSvg
  : gmap string jsstring.

#[local] Abbreviation generateSvg :=
  (ExportUtils.generateSvg objectPrototype backgroundSvg skinSvg tshirtSvg expressionSvg hairSvg).
#[local] Abbreviation generateBase64 :=
  (ExportUtils.generateBase64 objectPrototype backgroundSvg skinSvg tshirtSvg expressionSvg hairSvg).
#[local] Abbreviation generatePngBase64 :=
  (ExportUtils.generatePngBase64
     objectPrototype backgroundSvg skinSvg tshirtSvg expressionSvg hairSvg).
#[local] Abbreviation downloadSvg :=
  (ExportUtils.downloadSvg
     objectPrototype backgroundSvg skinSvg tshirtSvg expressionSvg hairSvg).
#[local] Abbreviation downloadPng :=
  (ExportUtils.downloadPng
     objectPrototype backgroundSvg skinSvg tshirtSvg expressionSvg hairSvg).

(** Runs the host calls of an export function on the world at hand. *)
Ltac run_effects :=
  unfold createObjectURL, appendChild, click, removeChild, revokeObjectURL,
    create, logEffect, step, hostCalls, throw, async;
  unfold mbind, mret, M_bind, M_ret;
  cbn [fst snd objectUrls nextHandle body history List.filter].

Lemma anchorEqb_refl (a : Anchor) : anchorEqb a a = true.
Proof.
  unfold anchorEqb, hrefEqb. destruct (a_href a) as [u|u].
  - rewrite Nat.eqb_refl. by rewrite bool_decide_eq_true_2.
  - by rewrite !bool_decide_eq_true_2.
Qed.

Lemma not_in_filter_self (a : Anchor) (l : list Anchor) :
  ~ In a (List.filter (fun b => negb (anchorEqb a b)) l).
Proof.
  intros [_ H]%filter_In. by rewrite anchorEqb_refl in H.
Qed.

(** In a browser whose calls return, [downloadSvg] returns normally
    after exactly these effects, in this order: a blob, an object URL
    for the markup of the configuration at size 474 with type
    [image/svg+xml], an anchor with that URL and the file name, its
    insertion, one click on it, its removal, and the release of the URL.
    The anchor is not left in the document. *)
Theorem downloadSvg_effects (h : Host) (config : PartialConfig)
  (filename : jsstring) (w : World) :
  windowDefined h = true -> neverThrows h ->
  let out := downloadSvg h config filename w in
  let u := nextHandle w in
  let a := {| a_href := ObjectUrl u; a_download := filename |} in
  out.1 = Ok tt
  /\ history out.2
     = [Revoked u; Removed a; Clicked a; Appended a; Created CreateElement;
        Allocated u (generateSvg config ExportUtils.defaultSize) "image/svg+xml"; Created NewBlob]
       ++ history w
  /\ clicks out.2 = a :: clicks w
  /\ ~ In a (body out.2).
Proof.
  intros Hw Hn out u a. subst out u a.
  unfold ExportUtils.downloadSvg. rewrite Hw. cbn [negb].
  generalize (generateSvg config ExportUtils.defaultSize). intros svg.
  run_effects. rewrite !Hn.
  cbn [fst snd objectUrls nextHandle body history List.filter].
  repeat apply conj; try reflexivity.
  apply not_in_filter_self.
Qed.

(** The promise executor touches neither the object URLs nor the
    document, and an exception in it rejects the promise. *)
Lemma rasterise_world (h : Host) (svg : jsstring) (size : number) (w : World) :
  let out := ExportUtils.rasterise h svg size w in
  objectUrls out.2 = objectUrls w /\ nextHandle out.2 = nextHandle w
  /\ body out.2 = body w /\ clicks out.2 = clicks w
  /\ exists p, out.1 = Ok p.
Proof.
  cbv zeta. unfold ExportUtils.rasterise. run_effects.
  destruct (throws h NewImage) as [e|]; [by eauto 10|].
  cbn [fst snd objectUrls nextHandle body history].
  destruct (throws h CreateElement) as [e|]; [by eauto 10|].
  cbn [fst snd objectUrls nextHandle body history].
  destruct (throws h GetContext) as [e|]; [by eauto 10|].
  destruct (contextAvailable h); cbn [negb]; [|by eauto 10].
  destruct (btoaDefined h); cbn [negb]; [|by eauto 10].
  destruct (rbind _ _) as [payload|e]; [|by eauto 10].
  destruct (imageOutcome h _); by eauto 10.
Qed.


Lemma generatePngBase64_world (h : Host) (config : PartialConfig)
  (size : number) (w : World) :
  let out := generatePngBase64 h config size w in
  objectUrls out.2 = objectUrls w /\ nextHandle out.2 = nextHandle w
  /\ body out.2 = body w /\ clicks out.2 = clicks w
  /\ exists p, out.1 = Ok p.
Proof.
  cbv zeta. unfold ExportUtils.generatePngBase64.
  destruct (windowDefined h); cbn [negb].
  - unfold async.
    destruct (rasterise_world h (generateSvg config size) size w)
      as (H1 & H2 & H3 & H4 & p & Hp).
    destruct (ExportUtils.rasterise h (generateSvg config size) size w)
      as [r w'].
    cbn [fst snd] in *. subst r. cbn [fst snd]. eauto 10.
  - unfold async, throw. cbn [fst snd]. eauto 10.
Qed.

(** In every host, whatever its calls do, [generatePngBase64] and
    [downloadPng] return a promise instead of throwing, and neither
    allocates an object URL; [generatePngBase64] also leaves the
    document as it was and clicks nothing. *)
Theorem png_export_never_throws_nor_allocates (h : Host)
  (config : PartialConfig) (size : number) (filename : jsstring) (w : World) :
  let png := generatePngBase64 h config size w in
  let dl := downloadPng h config size filename w in
  ((exists p, png.1 = Ok p) /\ objectUrls png.2 = objectUrls w
   /\ body png.2 = body w /\ clicks png.2 = clicks w)
  /\ ((exists p, dl.1 = Ok p) /\ objectUrls dl.2 = objectUrls w
      /\ nextHandle dl.2 = nextHandle w).
Proof.
  cbv zeta.
  destruct (generatePngBase64_world h config size w)
    as (Hu & Hn & Hb & Hc & p & Hp).
  split; [by eauto 10|].
  assert (Hd : exists q w2,
            downloadPng h config size filename w = (Ok q, w2)
            /\ objectUrls w2 = objectUrls w /\ nextHandle w2 = nextHandle w).
  { unfold ExportUtils.downloadPng.
    destruct (windowDefined h); cbn [negb];
      [|unfold async, throw; by eauto 10].
    unfold async at 1. unfold mbind at 1. unfold M_bind at 1.
    destruct (generatePngBase64 h config size w) as [r w'].
    cbn [fst snd] in Hu, Hn, Hb, Hc, Hp. subst r.
    destruct p as [dataUrl|e|].
    - run_effects.
      repeat match goal with
      | |- context [throws h ?c] =>
          destruct (throws h c) as [?|];
          cbn [fst snd objectUrls nextHandle body history]
      end; eauto 10.
    - unfold throw. eauto 10.
    - unfold mret, M_ret. eauto 10. }
  destruct Hd as (q & w2 & -> & Hu2 & Hn2). cbn [fst snd]. eauto 10.
Qed.

(** In a browser with [btoa] and a canvas context whose calls return,
    the image [generatePngBase64] rasterises is the data URL that
    [generateBase64] returns for the same configuration and size, and
    the promise follows the image: fulfilled with the canvas's data URL
    when it loads, rejected with "Failed to load SVG image" when it
    fails, pending while it does neither. *)
Theorem generatePngBase64_in_browser (h : Host) (config : PartialConfig)
  (size : number) (src : jsstring) (w : World) :
  windowDefined h = true -> neverThrows h -> contextAvailable h = true ->
  btoaDefined h = true ->
  generateBase64 h config size = Ok src ->
  (generatePngBase64 h config size w).1 = Ok (imageResult h src size).
Proof.
  intros Hw Hn Hc Hb Hsrc.
  unfold ExportUtils.generatePngBase64, ExportUtils.rasterise.
  unfold ExportUtils.generateBase64, ExportUtils.toBase64 in Hsrc.
  rewrite Hb in Hsrc. rewrite Hw, Hc, Hb. cbn [negb].
  revert Hsrc. generalize (generateSvg config size). intros svg Hsrc.
  destruct (rbind (encodeURIComponent svg) _) as [payload|e];
    [|discriminate Hsrc].
  cbn [rmap] in Hsrc. injection Hsrc as <-.
  run_effects. rewrite !Hn.
  cbn [fst snd objectUrls nextHandle body history].
  unfold imageResult.
  by destruct (imageOutcome h _).
Qed.

(** How [generatePngBase64] rejects in a browser whose calls return:
    without a canvas context, with "Could not get canvas context",
    whatever else holds; with a context but no [btoa], with a
    ReferenceError, although [generateBase64] succeeds in that host;
    with both, with whatever makes [generateBase64] throw. *)
Theorem generatePngBase64_rejections (h : Host) (config : PartialConfig)
  (size : number) (w : World) :
  windowDefined h = true -> neverThrows h ->
  let out := (generatePngBase64 h config size w).1 in
  (contextAvailable h = false ->
   out = Ok (Rejected (Error "Could not get canvas context")))
  /\ (contextAvailable h = true -> btoaDefined h = false ->
      out = Ok (Rejected (ReferenceError "btoa is not defined"))
      /\ exists src, generateBase64 h config size = Ok src)
  /\ (contextAvailable h = true -> btoaDefined h = true ->
      forall e, generateBase64 h config size = Throw e ->
      out = Ok (Rejected e)).
Proof.
  intros Hw Hn out. subst out.
  unfold ExportUtils.generatePngBase64, ExportUtils.rasterise,
    ExportUtils.generateBase64, ExportUtils.toBase64.
  rewrite Hw. cbn [negb].
  generalize (generateSvg config size). intros svg.
  run_effects. rewrite !Hn.
  cbn [fst snd objectUrls nextHandle body history].
  repeat apply conj.
  - by intros ->.
  - intros -> ->. cbn [negb]. split; [reflexivity|]. cbn [rmap]. eauto.
  - intros -> ->. cbn [negb]. intros e He.
    destruct (rbind (encodeURIComponent svg) _) as [payload|e'];
      [discriminate He|].
    cbn [rmap] in He. by injection He as ->.
Qed.

(** [downloadPng] waits for the image: when the promise of
    [generatePngBase64] is rejected it rejects with the same error,
    when that promise stays pending it stays pending, and in both
    cases it does nothing more: no anchor is made and nothing is
    clicked. *)
Theorem downloadPng_waits_for_image (h : Host) (config : PartialConfig)
  (size : number) (filename : jsstring) (w w' : World) :
  windowDefined h = true ->
  (forall e, generatePngBase64 h config size w = (Ok (Rejected e), w') ->
     downloadPng h config size filename w = (Ok (Rejected e), w'))
  /\ (generatePngBase64 h config size w = (Ok Pending, w') ->
      downloadPng h config size filename w = (Ok Pending, w')).
Proof.
  intros Hw. unfold ExportUtils.downloadPng. rewrite Hw. cbn [negb].
  split.
  - intros e He. unfold async at 1. unfold mbind, M_bind at 1. by rewrite He.
  - intros He. unfold async at 1. unfold mbind, M_bind at 1. by rewrite He.
Qed.

(** When the image is there, in a browser whose calls return,
    [downloadPng] makes an anchor that holds the PNG data URL itself
    and the file name, inserts it, clicks it once and removes it; no
    object URL is involved. *)
Theorem downloadPng_effects (h : Host) (config : PartialConfig)
  (size : number) (filename dataUrl : jsstring) (w w' : World) :
  windowDefined h = true -> neverThrows h ->
  generatePngBase64 h config size w = (Ok (Fulfilled dataUrl), w') ->
  let out := downloadPng h config size filename w in
  let a := {| a_href := DataUrl dataUrl; a_download := filename |} in
  out.1 = Ok (Fulfilled tt)
  /\ history out.2
     = [Removed a; Clicked a; Appended a; Created CreateElement] ++ history w'
  /\ clicks out.2 = a :: clicks w
  /\ objectUrls out.2 = objectUrls w
  /\ ~ In a (body out.2).
Proof.
  intros Hw Hn He out a. subst out.
  destruct (generatePngBase64_world h config size w)
    as (Hu & _ & Hb & Hc & _). rewrite He in Hu, Hb, Hc. cbn [snd] in Hu, Hb, Hc.
  assert (Hd : downloadPng h config size filename w
    = (Ok (Fulfilled tt),
       {| objectUrls := objectUrls w'; nextHandle := nextHandle w';
          body := List.filter (fun b => negb (anchorEqb a b)) (body w' ++ [a]);
          history := [Removed a; Clicked a; Appended a; Created CreateElement]
                     ++ history w' |})).
  { unfold ExportUtils.downloadPng. rewrite Hw. cbn [negb].
    unfold async at 1. unfold mbind at 1. unfold M_bind at 1. rewrite He.
    run_effects. rewrite !Hn. reflexivity. }
  rewrite Hd. cbn [fst snd objectUrls nextHandle body history].
  repeat apply conj; try reflexivity.
  - unfold clicks in Hc |- *. cbn [history omap list_omap app]. by rewrite Hc.
  - exact Hu.
  - apply not_in_filter_self.
Qed.

End ExportEffects.

Lemma browserHost_neverThrows : neverThrows browserHost.
Proof. intros c. reflexivity. Qed.

Lemma downloadSvg_effects_witness :
  windowDefined browserHost = true /\ neverThrows browserHost
  /\ clicks
       (ExportUtils.downloadSvg v8ObjectPrototype ∅ ∅ ∅ ∅ ∅
             browserHost ∅ (lit "avatar.svg")
          emptyWorld).2
     = [{| a_href := ObjectUrl 0; a_download := lit "avatar.svg" |}].
Proof.
  split; [reflexivity|]. split; [exact browserHost_neverThrows|].
  exact (proj1 (proj2 (proj2
    (downloadSvg_effects v8ObjectPrototype ∅ ∅ ∅ ∅ ∅
          browserHost ∅ (lit "avatar.svg")
       emptyWorld eq_refl browserHost_neverThrows)))).
Defined.

Lemma generatePngBase64_in_browser_witness :
  let src :=
    match ExportUtils.generateBase64 v8ObjectPrototype ∅ ∅ ∅ ∅ ∅
          browserHost ∅ ExportUtils.defaultSize with
    | Ok url => url
    | Throw _ => []
    end in
  ExportUtils.generateBase64 v8ObjectPrototype ∅ ∅ ∅ ∅ ∅
        browserHost ∅ ExportUtils.defaultSize = Ok src
  /\ (ExportUtils.generatePngBase64 v8ObjectPrototype ∅ ∅ ∅ ∅ ∅
        browserHost ∅ ExportUtils.defaultSize emptyWorld).1
     = Ok (imageResult browserHost src ExportUtils.defaultSize).
Proof.
  cbv zeta.
  assert (H : ExportUtils.generateBase64 v8ObjectPrototype ∅ ∅ ∅ ∅ ∅
        browserHost ∅ ExportUtils.defaultSize
              = Ok match ExportUtils.generateBase64 v8ObjectPrototype ∅ ∅ ∅ ∅ ∅
                    browserHost ∅ ExportUtils.defaultSize
                   with Ok url => url | Throw _ => [] end)
    by (vm_compute; reflexivity).
  split; [exact H|].
  exact (generatePngBase64_in_browser v8ObjectPrototype ∅ ∅ ∅ ∅ ∅
        browserHost ∅ ExportUtils.defaultSize _ emptyWorld
           eq_refl browserHost_neverThrows eq_refl eq_refl H).
Defined.

Lemma generatePngBase64_rejections_witness :
  windowDefined noBtoaHost = true /\ neverThrows noBtoaHost
  /\ (ExportUtils.generatePngBase64 v8ObjectPrototype ∅ ∅ ∅ ∅ ∅
        noBtoaHost ∅ ExportUtils.defaultSize emptyWorld).1
     = Ok (Rejected (ReferenceError "btoa is not defined")).
Proof.
  assert (Hn : neverThrows noBtoaHost) by (intros c; reflexivity).
  split; [reflexivity|]. split; [exact Hn|].
  exact (proj1 (proj1 (proj2
    (generatePngBase64_rejections v8ObjectPrototype ∅ ∅ ∅ ∅ ∅
          noBtoaHost ∅ ExportUtils.defaultSize emptyWorld
       eq_refl Hn)) eq_refl eq_refl)).
Defined.

Lemma downloadPng_waits_for_image_witness :
  let w' := {| objectUrls := []; nextHandle := 0; body := [];
               history := [Created CreateElement; Created NewImage] |} in
  windowDefined brokenImageHost = true
  /\ ExportUtils.downloadPng v8ObjectPrototype ∅ ∅ ∅ ∅ ∅
        brokenImageHost ∅ ExportUtils.defaultSize
       (lit "avatar.png") emptyWorld
     = (Ok (Rejected (Error "Failed to load SVG image")), w').
Proof.
  cbv zeta. split; [reflexivity|].
  apply (proj1 (downloadPng_waits_for_image v8ObjectPrototype ∅ ∅ ∅ ∅ ∅
        brokenImageHost ∅ ExportUtils.defaultSize
                  (lit "avatar.png") emptyWorld _ eq_refl)).
  vm_compute. reflexivity.
Defined.

Lemma downloadPng_effects_witness :
  let a := {| a_href := DataUrl (lit "data:image/png;base64,");
              a_download := lit "avatar.png" |} in
  windowDefined browserHost = true /\ neverThrows browserHost
  /\ clicks (ExportUtils.downloadPng v8ObjectPrototype ∅ ∅ ∅ ∅ ∅
        browserHost ∅ ExportUtils.defaultSize
               (lit "avatar.png") emptyWorld).2 = [a]
  /\ objectUrls (ExportUtils.downloadPng v8ObjectPrototype ∅ ∅ ∅ ∅ ∅
        browserHost ∅ ExportUtils.defaultSize
                   (lit "avatar.png") emptyWorld).2 = [].
Proof.
  cbv zeta.
  assert (H : ExportUtils.generatePngBase64 v8ObjectPrototype ∅ ∅ ∅ ∅ ∅
        browserHost ∅ ExportUtils.defaultSize
                emptyWorld
              = (Ok (Fulfilled (lit "data:image/png;base64,")),
                 {| objectUrls := []; nextHandle := 0; body := [];
                    history := [Created CreateElement; Created NewImage] |}))
    by (vm_compute; reflexivity).
  split; [reflexivity|]. split; [exact browserHost_neverThrows|].
  pose proof (downloadPng_effects v8ObjectPrototype ∅ ∅ ∅ ∅ ∅
        browserHost ∅ ExportUtils.defaultSize
                (lit "avatar.png") _ emptyWorld _ eq_refl
                browserHost_neverThrows H) as (_ & _ & Hc & Hu & _).
  split; [exact Hc|exact Hu].
Defined.

(** ** Complete configurations *)

Lemma defaultConfig_legal : isAvatarConfig Avatar.defaultConfig.
Proof.
  split.
  - apply (bool_decide_unpack _). vm_compute. exact I.
  - intros k v Hv.
    destruct (decide (k ∈ Types.keys)) as [Hk|Hk].
    + apply keys_cases in Hk as [-> | [-> | [-> | [-> | ->]]]];
        injection Hv as <-; apply (bool_decide_unpack _); vm_compute; exact I.
    + exfalso. apply Hk.
      replace Types.keys with (dom Avatar.defaultConfig)
        by (apply (bool_decide_unpack _); vm_compute; exact I).
      apply elem_of_dom. by exists v.
Qed.

Lemma insert_legal (c : gmap string string) (k v : string) :
  isAvatarConfig c -> k ∈ Types.keys -> v ∈ optionsOf k ->
  isAvatarConfig (<[k := v]> c).
Proof.
  intros [Hdom Hval] Hk Hv. split.
  - rewrite dom_insert_L, Hdom. apply subseteq_union_1_L.
    by apply singleton_subseteq_l.
  - intros k' v' H. destruct (decide (k = k')) as [->|Hne].
    + rewrite lookup_insert_eq in H. by injection H as <-.
    + rewrite lookup_insert_ne in H by exact Hne. by eapply Hval.
Qed.


(** The lists of [types.ts] hold no value twice, the two default
    configurations are one and the same, and it is complete: each of
    its values is in the list of its key. *)
Theorem variants_and_defaults :
  (forall k, NoDup (optionsOf k))
  /\ (forall k, k ∈ Types.keys -> optionsOf k <> [])
  /\ Avatar.defaultConfig = ExportUtils.defaultConfig
  /\ isAvatarConfig ExportUtils.defaultConfig.
Proof.
  split; [|split; [|split]].
  - apply options_NoDup.
  - intros k [-> | [-> | [-> | [-> | ->]]]]%keys_cases; discriminate.
  - reflexivity.
  - exact defaultConfig_legal.
Qed.

(** ** What the picker shows *)

Section PickerViewProperties.

Import AvatarPicker PickerView.

Lemma filter_selected_None (options : list string) :
  List.filter selected (CategorySelector options None) = [].
Proof.
  unfold CategorySelector. induction options as [|o l IH]; [reflexivity|].
  cbn [map List.filter selected]. by rewrite bool_decide_eq_false_2.
Qed.

Lemma selected_absent (options : list string) (v : string) :
  v ∉ options -> selectedOptions (CategorySelector options (Some v)) = [].
Proof.
  unfold selectedOptions, CategorySelector.
  induction options as [|o l IH]; intros Hv; [reflexivity|].
  apply not_elem_of_cons in Hv as [Hne Hv].
  cbn [map List.filter selected].
  rewrite bool_decide_eq_false_2 by congruence. by apply IH.
Qed.

(** The options a selector marks as selected: the value alone when it
    is one of the options, none otherwise. *)
Lemma CategorySelector_selected (options : list string)
  (value : option string) :
  NoDup options ->
  selectedOptions (CategorySelector options value)
  = match value with
    | Some v => if bool_decide (v ∈ options) then [v] else []
    | None => []
    end.
Proof.
  intros Hn. destruct value as [v|].
  - induction Hn as [|o l Ho Hn IH].
    + reflexivity.
    + unfold selectedOptions, CategorySelector in *.
      cbn [map List.filter selected].
      destruct (decide (v = o)) as [->|Hne].
      * rewrite bool_decide_eq_true_2 by reflexivity.
        rewrite (bool_decide_eq_true_2 (o ∈ o :: l)) by left.
        cbn [map shown]. f_equal.
        exact (selected_absent l o Ho).
      * rewrite bool_decide_eq_false_2 by congruence.
        rewrite IH.
        rewrite (bool_decide_ext (v ∈ o :: l) (v ∈ l)); [reflexivity|].
        rewrite elem_of_cons. tauto.
  - unfold selectedOptions. by rewrite filter_selected_None.
Qed.

Lemma selectors_cases (s : Picker) (k : string) (buttons : list OptionButton) :
  (k, buttons) ∈ selectors s ->
  k ∈ Types.keys
  /\ buttons = CategorySelector (optionsOf k) (config s !! k).
Proof.
  unfold selectors. rewrite !elem_of_cons, elem_of_nil.
  intros [H|[H|[H|[H|[H|[]]]]]]; injection H as -> ->;
    (split; [apply (bool_decide_unpack _); vm_compute; exact I|reflexivity]).
Qed.

Lemma selectors_complete (s : Picker) (k : string) :
  k ∈ Types.keys ->
  (k, CategorySelector (optionsOf k) (config s !! k)) ∈ selectors s.
Proof.
  intros [-> | [-> | [-> | [-> | ->]]]]%keys_cases; unfold selectors;
    rewrite !elem_of_cons; tauto.
Qed.

(** For a complete configuration every selector of the picker marks
    exactly one option as selected, the value the configuration holds
    for the selector's key. *)
Theorem selectors_show_configuration (s : Picker) (k : string)
  (buttons : list OptionButton) :
  isAvatarConfig (config s) -> (k, buttons) ∈ selectors s ->
  exists v, config s !! k = Some v /\ selectedOptions buttons = [v].
Proof.
  intros [Hdom Hval] [Hk ->]%selectors_cases.
  rewrite <- Hdom in Hk. apply elem_of_dom in Hk as [v Hv].
  exists v. split; [exact Hv|]. rewrite Hv.
  rewrite CategorySelector_selected by apply options_NoDup.
  by rewrite bool_decide_eq_true_2 by (by eapply Hval).
Qed.

(** After a click on an option button the selector it belongs to marks
    that option alone, and the four other selectors are rendered as
    before the click. *)
Theorem click_selects_option (p : Props) (s : Picker) (k : string)
  (buttons : list OptionButton) (b : OptionButton) :
  (k, buttons) ∈ selectors s -> b ∈ buttons ->
  let s' := (updateConfig p s k (clickValue b)).1 in
  forall k' buttons', (k', buttons') ∈ selectors s' ->
    if bool_decide (k' = k) then selectedOptions buttons' = [shown b]
    else (k', buttons') ∈ selectors s.
Proof.
  intros [Hk ->]%selectors_cases Hb s' k' buttons' [Hk' ->]%selectors_cases.
  subst s'. unfold updateConfig. cbn [fst config].
  assert (Hshown : clickValue b = shown b /\ shown b ∈ optionsOf k).
  { unfold CategorySelector in Hb. apply list_elem_of_fmap in Hb as (o & -> & Ho).
    by split. }
  destruct Hshown as [Hc Ho]. rewrite Hc.
  destruct (decide (k' = k)) as [->|Hne].
  - rewrite bool_decide_eq_true_2 by reflexivity.
    rewrite lookup_insert_eq.
    rewrite CategorySelector_selected by apply options_NoDup.
    by rewrite bool_decide_eq_true_2.
  - rewrite bool_decide_eq_false_2 by exact Hne.
    rewrite lookup_insert_ne by congruence.
    by apply selectors_complete.
Qed.

End PickerViewProperties.

Lemma selectors_show_configuration_witness :
  let s := AvatarPicker.mount
             {| AvatarPicker.value := None; AvatarPicker.onChange := None |} in
  let buttons :=
    PickerView.CategorySelector Types.HAIRS (Some "shortBuzz"%string) in
  isAvatarConfig (AvatarPicker.config s)
  /\ ("hair"%string, buttons) ∈ PickerView.selectors s
  /\ exists v, AvatarPicker.config s !! "hair"%string = Some v
       /\ PickerView.selectedOptions buttons = [v].
Proof.
  cbv zeta.
  assert (Hin : ("hair"%string,
                 PickerView.CategorySelector Types.HAIRS (Some "shortBuzz"%string))
                ∈ PickerView.selectors
                    (AvatarPicker.mount
                       {| AvatarPicker.value := None;
                          AvatarPicker.onChange := None |})).
  { assert (Hk : "hair"%string ∈ Types.keys)
      by (apply (bool_decide_unpack _); vm_compute; exact I).
    exact (selectors_complete
             (AvatarPicker.mount
                {| AvatarPicker.value := None; AvatarPicker.onChange := None |})
             "hair" Hk). }
  split; [exact defaultConfig_legal|]. split; [exact Hin|].
  exact (selectors_show_configuration
           (AvatarPicker.mount
              {| AvatarPicker.value := None; AvatarPicker.onChange := None |})
           "hair" _ defaultConfig_legal Hin).
Defined.

Lemma click_selects_option_witness :
  let p := {| AvatarPicker.value := None; AvatarPicker.onChange := None |} in
  let s := AvatarPicker.mount p in
  let buttons :=
    PickerView.CategorySelector Types.HAIRS (Some "shortBuzz"%string) in
  let b := {| PickerView.shown := "bob"; PickerView.selected := false;
              PickerView.clickValue := "bob" |} in
  ("hair"%string, buttons) ∈ PickerView.selectors s /\ b ∈ buttons
  /\ PickerView.selectedOptions
       (PickerView.CategorySelector Types.HAIRS
          (AvatarPicker.config (AvatarPicker.updateConfig p s "hair" "bob").1
             !! "hair"%string))
     = ["bob"%string].
Proof.
  cbv zeta.
  set (p := {| AvatarPicker.value := None; AvatarPicker.onChange := None |}).
  set (b := {| PickerView.shown := "bob"; PickerView.selected := false;
               PickerView.clickValue := "bob" |}).
  assert (Hk : "hair"%string ∈ Types.keys)
    by (apply (bool_decide_unpack _); vm_compute; exact I).
  assert (Hin : ("hair"%string,
                 PickerView.CategorySelector Types.HAIRS (Some "shortBuzz"%string))
                ∈ PickerView.selectors (AvatarPicker.mount p)).
  { exact (selectors_complete (AvatarPicker.mount p) "hair" Hk). }
  assert (Hb : b ∈ PickerView.CategorySelector Types.HAIRS
                     (Some "shortBuzz"%string)).
  { apply list_elem_of_fmap. exists "bob"%string. split; [reflexivity|].
    apply (bool_decide_unpack _). vm_compute. exact I. }
  split; [exact Hin|]. split; [exact Hb|].
  exact (click_selects_option p (AvatarPicker.mount p) "hair" _ b Hin Hb
           "hair"%string _
           (selectors_complete
              (AvatarPicker.updateConfig p (AvatarPicker.mount p) "hair" "bob").1
              "hair" Hk)).
Defined.

(** ** A picker over time *)

Section SessionProperties.

Import AvatarPicker PickerSession.

Lemma handle_legal (s : Session) (e : event) :
  typed e -> isAvatarConfig (config (picker s)) ->
  isAvatarConfig (config (picker (handle s e))).
Proof.
  intros He Hs. destruct e as [p|key val|d]; cbn [handle picker].
  - unfold rerender. destruct (sameValue _ _); [exact Hs|].
    cbn [config]. unfold syncEffect.
    destruct (value p) as [o|] eqn:Ho; [|exact Hs]. by apply He.
  - destruct He as [Hk Hv]. cbn [updateConfig fst config].
    by apply insert_legal.
  - cbn [handleRandom fst config]. by apply generateRandomConfig_legal.
Qed.

(** A picker whose renders bring complete configurations or none, whose
    picks are of values of the key's list and whose random draws are in
    range holds a complete configuration after every event, from its
    first render on. *)
Theorem session_keeps_configuration_legal (p : Props) (es : list event) :
  typed (Render p) -> Forall typed es ->
  isAvatarConfig (config (picker (run (start p) es))).
Proof.
  intros Hp Hes.
  assert (H0 : isAvatarConfig (config (picker (start p)))).
  { cbn [start picker]. unfold mount. cbn [config]. unfold syncEffect.
    cbn [typed] in Hp. destruct (value p) as [o|]; [by apply Hp|].
    apply defaultConfig_legal. }
  unfold run. revert H0. generalize (start p).
  induction Hes as [|e es He _ IH]; intros s Hs; [exact Hs|].
  cbn [foldl]. apply IH. by apply handle_legal.
Qed.

Lemma run_snoc (s : Session) (es : list event) (e : event) :
  run s (es ++ [e]) = handle (run s es) e.
Proof. unfold run. by rewrite foldl_app. Qed.

Lemma run_props (f : nat) (s : Session) (es : list event) :
  onChange (props s) = Some f -> Forall (passes f) es ->
  onChange (props (run s es)) = Some f.
Proof.
  intros Hs Hes. revert s Hs. unfold run.
  induction Hes as [|e es He _ IH]; intros s Hs; [exact Hs|].
  cbn [foldl]. apply IH. destruct e; cbn [handle props passes] in *; done.
Qed.

(** With a callback passed at every render, the picker calls it once
    for every pick or randomisation and never because of a render: the
    calls are as many as the user events, all of that callback, and a
    user event adds one call whose argument is the configuration the
    picker holds after it. *)
Theorem session_calls_once_per_user_event (f : nat) (p : Props)
  (es : list event) :
  onChange p = Some f -> Forall (passes f) es ->
  let s := run (start p) es in
  length (calls s) = length (List.filter isUserEvent es)
  /\ Forall (fun c => callee c = f) (calls s)
  /\ (forall es' e, es = es' ++ [e] ->
        calls s
        = calls (run (start p) es')
          ++ (if isUserEvent e
              then [{| callee := f; argument := config (picker s) |}]
              else [])).
Proof.
  intros Hp Hes s. subst s.
  induction es as [|e es IH] using rev_ind.
  - cbn. repeat apply conj; [reflexivity|constructor|].
    intros [|] e' H; discriminate H.
  - apply Forall_app in Hes as [Hes He]. destruct (IH Hes) as (Hl & Hf & _).
    pose proof (run_props f (start p) es Hp Hes) as Hprops.
    assert (Hstep : calls (run (start p) (es ++ [e]))
      = calls (run (start p) es)
        ++ (if isUserEvent e
            then [{| callee := f;
                     argument := config (picker (run (start p) (es ++ [e]))) |}]
            else [])).
    { rewrite run_snoc. destruct e as [q|key val|d]; cbn [handle calls isUserEvent picker].
      - by rewrite app_nil_r.
      - cbn [updateConfig fst snd config]. unfold notify. by rewrite Hprops.
      - cbn [handleRandom fst snd config]. unfold notify. by rewrite Hprops. }
    repeat apply conj.
    + rewrite Hstep, List.filter_app, !length_app, Hl. cbn [List.filter].
      by destruct (isUserEvent e).
    + rewrite Hstep. apply Forall_app. split; [exact Hf|].
      destruct (isUserEvent e); repeat constructor.
    + intros es' e' Heq. apply app_inj_tail in Heq as [<- <-]. exact Hstep.
Qed.

End SessionProperties.

Lemma session_keeps_configuration_legal_witness :
  let p := {| AvatarPicker.value := None; AvatarPicker.onChange := None |} in
  let es := [PickerSession.Pick "hair" "bob"; PickerSession.Randomize lastDraws;
             PickerSession.Render p] in
  PickerSession.typed (PickerSession.Render p)
  /\ Forall PickerSession.typed es
  /\ isAvatarConfig
       (AvatarPicker.config
          (PickerSession.picker (PickerSession.run (PickerSession.start p) es))).
Proof.
  cbv zeta.
  set (p := {| AvatarPicker.value := None; AvatarPicker.onChange := None |}).
  assert (Hp : PickerSession.typed (PickerSession.Render p))
    by (intros o Ho; discriminate Ho).
  assert (Hes : Forall PickerSession.typed
                  [PickerSession.Pick "hair" "bob";
                   PickerSession.Randomize lastDraws; PickerSession.Render p]).
  { repeat apply Forall_cons_2; [| |exact Hp|apply Forall_nil_2].
    - split; apply (bool_decide_unpack _); vm_compute; exact I.
    - vm_compute. repeat split; lia. }
  split; [exact Hp|]. split; [exact Hes|].
  exact (session_keeps_configuration_legal p _ Hp Hes).
Defined.

Lemma session_calls_once_per_user_event_witness :
  let p := {| AvatarPicker.value := None; AvatarPicker.onChange := Some 7%nat |} in
  let es := [PickerSession.Pick "hair" "bob"; PickerSession.Render p;
             PickerSession.Randomize lastDraws] in
  AvatarPicker.onChange p = Some 7%nat
  /\ Forall (PickerSession.passes 7) es
  /\ length (PickerSession.calls
               (PickerSession.run (PickerSession.start p) es)) = 2%nat.
Proof.
  cbv zeta.
  set (p := {| AvatarPicker.value := None; AvatarPicker.onChange := Some 7%nat |}).
  assert (Hes : Forall (PickerSession.passes 7)
                  [PickerSession.Pick "hair" "bob"; PickerSession.Render p;
                   PickerSession.Randomize lastDraws])
    by (repeat apply Forall_cons_2; try apply Forall_nil_2; exact I || reflexivity).
  split; [reflexivity|]. split; [exact Hes|].
  exact (proj1 (session_calls_once_per_user_event 7 p _ eq_refl Hes)).
Defined.

(** ** A local change and the value prop *)

Section ControlledPicker.

Import AvatarPicker.

(** A change made in the picker survives a render that passes the
    value object the picker last synchronised with (a parent that did
    not adopt the change): the effect does not run again.  A render
    with another object, whatever its fields, replaces the change by
    the fields of that object. *)
Theorem local_change_until_new_value (p : Props) (s : Picker)
  (o o' : ConfigObject) (cb : option nat) (k v : string) :
  syncedWith s = Some o ->
  let changed := (updateConfig p s k v).1 in
  let after := rerender {| value := Some o'; onChange := cb |} changed in
  (address o' = address o -> config after = <[k := v]> (config s))
  /\ (address o' <> address o ->
      config after = fields o' /\ syncedWith after = Some o').
Proof.
  intros Hs changed after. subst changed after.
  unfold updateConfig, rerender. cbn [fst syncedWith value config].
  rewrite Hs. cbn [sameValue].
  destruct (Nat.eqb_spec (address o) (address o')) as [He|Hne].
  - split; [reflexivity|]. intros Hne. by destruct Hne.
  - split; [|by split]. intros He. by destruct Hne.
Qed.

End ControlledPicker.

Lemma local_change_until_new_value_witness :
  let o := {| AvatarPicker.address := 0;
              AvatarPicker.fields := Avatar.defaultConfig |} in
  let copy := {| AvatarPicker.address := 1;
                 AvatarPicker.fields := Avatar.defaultConfig |} in
  let p := {| AvatarPicker.value := Some o; AvatarPicker.onChange := None |} in
  let changed := (AvatarPicker.updateConfig p (AvatarPicker.mount p)
                    "hair" "bob").1 in
  AvatarPicker.syncedWith (AvatarPicker.mount p) = Some o
  /\ AvatarPicker.config (AvatarPicker.rerender p changed) !! "hair"%string
     = Some "bob"%string
  /\ AvatarPicker.config
       (AvatarPicker.rerender
          {| AvatarPicker.value := Some copy; AvatarPicker.onChange := None |}
          changed) !! "hair"%string
     = Some "shortBuzz"%string.
Proof.
  cbv zeta.
  set (o := {| AvatarPicker.address := 0;
               AvatarPicker.fields := Avatar.defaultConfig |}).
  set (copy := {| AvatarPicker.address := 1;
                  AvatarPicker.fields := Avatar.defaultConfig |}).
  set (p := {| AvatarPicker.value := Some o; AvatarPicker.onChange := None |}).
  pose proof (local_change_until_new_value p (AvatarPicker.mount p) o o None
                "hair" "bob" eq_refl) as [Hsame _].
  pose proof (local_change_until_new_value p (AvatarPicker.mount p) o copy None
                "hair" "bob" eq_refl) as [_ Hother].
  cbv zeta in Hsame, Hother. subst p o copy.
  split; [reflexivity|]. split.
  - rewrite (Hsame eq_refl). reflexivity.
  - destruct (Hother ltac:(discriminate)) as [-> _]. reflexivity.
Defined.

(** ** The demo application *)

Section AppProperties.

Import AvatarPicker.

Lemma generated_address (a : nat) (ds : nat -> Avatar.Draws)
  (o : ConfigObject) :
  o ∈ map (App.generated a ds) (seq 0 12) ->
  exists i, (i < 12)%nat /\ o = App.generated a ds i.
Proof.
  intros (i & -> & Hi)%list_elem_of_fmap. exists i. split; [|reflexivity].
  apply list_elem_of_In, in_seq in Hi. lia.
Qed.

Lemma regenerateRandom_coherent (ds : nat -> Avatar.Draws) (st : App.State) :
  App.coherent st -> App.coherent (App.regenerateRandom ds st).
Proof.
  intros (Hlt & Huniq & Hsync & Hcfg).
  apply Forall_cons_1 in Hlt as [Hc Hlt].
  unfold App.coherent, App.regenerateRandom.
  cbn [App.config App.randomAvatars App.picker App.nextAddress].
  repeat apply conj; [| |exact Hsync|exact Hcfg].
  - apply Forall_cons. split; [lia|].
    apply Forall_forall. intros o (i & Hi & ->)%generated_address.
    cbn [App.generated address]. lia.
  - intros o o' Ho Ho' Ha.
    apply elem_of_cons in Ho as [->|(i & Hi & ->)%generated_address];
      apply elem_of_cons in Ho' as [->|(j & Hj & ->)%generated_address];
      cbn [App.generated address] in *; try reflexivity; try lia.
    by replace j with i by lia.
Qed.

Lemma setConfig_fresh_coherent (st : App.State) (p : Picker)
  (c : gmap string string) :
  App.coherent st -> syncedWith p = Some (App.config st) ->
  App.coherent
    (App.setConfig {| address := App.nextAddress st; fields := c |} p
       {| App.config := App.config st;
          App.randomAvatars := App.randomAvatars st;
          App.picker := p; App.nextAddress := S (App.nextAddress st) |}).
Proof.
  intros (Hlt & Huniq & _ & _) Hp.
  pose proof Hlt as [Hc Hlt']%Forall_cons_1.
  unfold App.coherent, App.setConfig.
  cbn [App.config App.randomAvatars App.picker App.nextAddress].
  unfold rerender, App.pickerProps. cbn [value]. rewrite Hp.
  cbn [sameValue address].
  replace (address (App.config st) =? App.nextAddress st)%nat with false
    by (symmetry; apply Nat.eqb_neq; lia).
  cbn [config syncedWith syncEffect fields].
  repeat apply conj; try reflexivity.
  - apply Forall_cons. cbn [address]. split; [lia|].
    eapply Forall_impl; [exact Hlt'|]. cbn. intros o Ho. lia.
  - intros o o' Ho Ho' Ha.
    rewrite Forall_forall in Hlt'.
    apply elem_of_cons in Ho as [->|Ho];
      apply elem_of_cons in Ho' as [->|Ho']; try reflexivity.
    + apply Hlt' in Ho'. cbn [address] in Ha. lia.
    + apply Hlt' in Ho. cbn [address] in Ha. lia.
    + apply Huniq; [by right|by right|exact Ha].
Qed.

Lemma act_coherent (st : App.State) (a : App.action) :
  App.coherent st -> App.coherent (App.act st a).
Proof.
  intros Hst. pose proof Hst as (Hlt & Huniq & Hsync & Hcfg).
  destruct a as [key val|d|i|ds]; cbn [App.act].
  - unfold updateConfig, notify, App.pickerProps. cbn [onChange fst snd App.deliver argument].
    by apply setConfig_fresh_coherent.
  - unfold handleRandom, notify, App.pickerProps. cbn [onChange fst snd App.deliver argument].
    by apply setConfig_fresh_coherent.
  - destruct (App.randomAvatars st !! i) as [o|] eqn:Ho; [|exact Hst].
    apply list_elem_of_lookup_2 in Ho.
    unfold App.coherent, App.setConfig.
    cbn [App.config App.randomAvatars App.picker App.nextAddress].
    assert (Hsub : forall x, x ∈ o :: App.randomAvatars st ->
                     x ∈ App.config st :: App.randomAvatars st).
    { intros x [->|Hx]%elem_of_cons; by right. }
    assert (Hpick : let p := rerender (App.pickerProps o) (App.picker st) in
              syncedWith p = Some o /\ config p = fields o).
    { unfold rerender, App.pickerProps. cbn [value]. rewrite Hsync.
      cbn [sameValue]. destruct (Nat.eqb_spec (address (App.config st)) (address o)) as [Ha|Ha].
      - assert (App.config st = o) as <-
          by (apply Huniq; [by left|by right|exact Ha]).
        by split.
      - by split. }
    destruct Hpick as [Hp1 Hp2].
    repeat apply conj; [| |exact Hp1|exact Hp2].
    + rewrite Forall_forall in Hlt |- *. intros x Hx. by apply Hlt, Hsub.
    + intros x x' Hx Hx'. apply Huniq; by apply Hsub.
  - by apply regenerateRandom_coherent.
Qed.

Lemma init_coherent (d : Avatar.Draws) (ds : nat -> Avatar.Draws) :
  App.coherent (App.init d ds).
Proof.
  unfold App.init. apply regenerateRandom_coherent.
  unfold App.coherent.
  cbn [App.config App.randomAvatars App.picker App.nextAddress].
  repeat apply conj; try reflexivity.
  - repeat constructor.
  - intros o o' ->%list_elem_of_singleton ->%list_elem_of_singleton _.
    reflexivity.
Qed.

Lemma runActions_coherent (st : App.State) (actions : list App.action) :
  App.coherent st -> App.coherent (App.runActions st actions).
Proof.
  unfold App.runActions. revert st.
  induction actions as [|a l IH]; intros st Hst; [exact Hst|].
  cbn [foldl]. by apply IH, act_coherent.
Qed.

Lemma act_gallery (st : App.State) (a : App.action) :
  length (App.randomAvatars st) = 12%nat ->
  length (App.randomAvatars (App.act st a)) = 12%nat.
Proof.
  intros H. destruct a as [key val|d|i|ds]; cbn [App.act]; try exact H.
  - destruct (App.randomAvatars st !! i); exact H.
  - reflexivity.
Qed.

Lemma runActions_gallery (st : App.State) (actions : list App.action) :
  length (App.randomAvatars st) = 12%nat ->
  length (App.randomAvatars (App.runActions st actions)) = 12%nat.
Proof.
  unfold App.runActions. revert st.
  induction actions as [|a l IH]; intros st Hst; [exact Hst|].
  cbn [foldl]. by apply IH, act_gallery.
Qed.

(** Whatever the user does in the demo application (picking options,
    randomising, choosing an avatar of the gallery, regenerating the
    gallery), the picker holds the application's configuration and has
    synchronised with that very object, and the gallery holds twelve
    avatars. *)
Theorem app_picker_shows_config (d : Avatar.Draws) (ds : nat -> Avatar.Draws)
  (actions : list App.action) :
  let st := App.runActions (App.init d ds) actions in
  config (App.picker st) = fields (App.config st)
  /\ syncedWith (App.picker st) = Some (App.config st)
  /\ length (App.randomAvatars st) = 12%nat.
Proof.
  intros st. subst st.
  destruct (runActions_coherent _ actions (init_coherent d ds))
    as (_ & _ & Hsync & Hcfg).
  repeat apply conj; [exact Hcfg|exact Hsync|].
  by apply runActions_gallery.
Qed.

Lemma rerender_legal (o : ConfigObject) (p : Picker) :
  isAvatarConfig (fields o) -> isAvatarConfig (config p) ->
  isAvatarConfig (config (rerender (App.pickerProps o) p)).
Proof.
  intros Ho Hp. unfold rerender. by destruct (sameValue _ _).
Qed.

Lemma act_legal (st : App.State) (a : App.action) :
  App.typedAction a -> App.allLegal st -> App.allLegal (App.act st a).
Proof.
  intros Ha [Hall Hp]. pose proof Hall as [Hc Hg]%Forall_cons_1.
  destruct a as [key val|d|i|ds]; cbn [App.act App.typedAction] in *.
  - destruct Ha as [Hk Hv].
    unfold updateConfig, notify, App.pickerProps.
    cbn [onChange fst snd App.deliver argument].
    assert (Hn : isAvatarConfig (<[key := val]> (config (App.picker st))))
      by (by apply insert_legal).
    unfold App.allLegal, App.setConfig.
    cbn [App.config App.randomAvatars App.picker].
    split; [by apply Forall_cons|].
    by apply rerender_legal.
  - unfold handleRandom, notify, App.pickerProps.
    cbn [onChange fst snd App.deliver argument].
    assert (Hn : isAvatarConfig (Avatar.generateRandomConfig d))
      by (by apply generateRandomConfig_legal).
    unfold App.allLegal, App.setConfig.
    cbn [App.config App.randomAvatars App.picker].
    split; [by apply Forall_cons|].
    by apply rerender_legal.
  - destruct (App.randomAvatars st !! i) as [o|] eqn:Ho; [|by split].
    apply list_elem_of_lookup_2 in Ho.
    rewrite Forall_forall in Hg. pose proof (Hg _ Ho) as Hlegal.
    unfold App.allLegal, App.setConfig.
    cbn [App.config App.randomAvatars App.picker].
    split; [apply Forall_cons; split; [exact Hlegal|by apply Forall_forall]|].
    by apply rerender_legal.
  - unfold App.allLegal, App.regenerateRandom.
    cbn [App.config App.randomAvatars App.picker].
    split; [|exact Hp]. apply Forall_cons. split; [exact Hc|].
    apply Forall_forall. intros o (j & -> & _)%list_elem_of_fmap.
    cbn [App.generated fields]. by apply generateRandomConfig_legal.
Qed.

(** With every random draw in range and every pick of a value of the
    key's list, the application's configuration, the twelve of the
    gallery and the picker's are complete configurations after any
    sequence of actions. *)
Theorem app_shows_complete_configurations (d : Avatar.Draws)
  (ds : nat -> Avatar.Draws) (actions : list App.action) :
  drawsInRange d -> (forall i, drawsInRange (ds i)) ->
  Forall App.typedAction actions ->
  let st := App.runActions (App.init d ds) actions in
  Forall (fun o => isAvatarConfig (fields o))
         (App.config st :: App.randomAvatars st)
  /\ isAvatarConfig (config (App.picker st)).
Proof.
  intros Hd Hds Hacts st. subst st.
  assert (H0 : App.allLegal (App.init d ds)).
  { apply (act_legal _ (App.Regenerate ds)); [exact Hds|].
    assert (Hl : isAvatarConfig (Avatar.generateRandomConfig d))
      by (by apply generateRandomConfig_legal).
    split; [|exact Hl].
    cbn [App.config App.randomAvatars].
    apply Forall_cons. split; [exact Hl|apply Forall_nil_2]. }
  revert H0. unfold App.runActions. generalize (App.init d ds).
  induction Hacts as [|a l Ha _ IH]; intros st Hst; [exact Hst|].
  cbn [foldl]. by apply IH, act_legal.
Qed.

End AppProperties.

Lemma app_shows_complete_configurations_witness :
  let actions := [App.PickOption "hair" "bob"; App.SelectRandomAvatar 3;
                  App.PressRandomize firstDraws] in
  drawsInRange firstDraws /\ (forall i : nat, drawsInRange lastDraws)
  /\ Forall App.typedAction actions
  /\ isAvatarConfig
       (AvatarPicker.config
          (App.picker
             (App.runActions (App.init firstDraws (fun _ => lastDraws))
                actions))).
Proof.
  cbv zeta.
  assert (Hf : drawsInRange firstDraws) by (vm_compute; repeat split; lia).
  assert (Hl : forall i : nat, drawsInRange lastDraws)
    by (intros _; vm_compute; repeat split; lia).
  assert (Ha : Forall App.typedAction
                 [App.PickOption "hair" "bob"; App.SelectRandomAvatar 3;
                  App.PressRandomize firstDraws]).
  { repeat apply Forall_cons_2; [|exact I|exact Hf|apply Forall_nil_2].
    split; apply (bool_decide_unpack _); vm_compute; exact I. }
  split; [exact Hf|]. split; [exact Hl|]. split; [exact Ha|].
  exact (proj2 (app_shows_complete_configurations firstDraws
                  (fun _ => lastDraws) _ Hf Hl Ha)).
Defined.

(** ** The component *)

Section AvatarComponent.

Variable objectPrototype : gmap string string.

Variables backgroundComponents skinComponents tshirtComponents
  expressionComponents hairComponents : gmap string Avatar.element.

#[local] Abbreviation AvatarElement :=
  (Avatar.Avatar objectPrototype backgroundComponents skinComponents
     tshirtComponents expressionComponents hairComponents).

(** Leaving a prop of the [Avatar] component out is passing its
    default: the element rendered for any props is the element
    rendered for the same props with size 200 and the five values of
    [defaultConfig] filled in where a prop is [undefined].  The root
    element carries the size as its width and height ([200] when none
    is given), and [className] and [style], which have no default, as
    they are given or not at all. *)
Theorem Avatar_reads_defaulted_props (props : Avatar.AvatarProps) :
  AvatarElement props
  = AvatarElement
      {| Avatar.size :=
           Some (default (SafeInteger 200 eq_refl) (Avatar.size props));
         Avatar.className := Avatar.className props;
         Avatar.style := Avatar.style props;
         Avatar.background :=
           Some (default "babyBlue"%string (Avatar.background props));
         Avatar.skin := Some (default "softPeach"%string (Avatar.skin props));
         Avatar.tshirt := Some (default "orange"%string (Avatar.tshirt props));
         Avatar.expression :=
           Some (default "happy"%string (Avatar.expression props));
         Avatar.hair :=
           Some (default "shortBuzz"%string (Avatar.hair props)) |}
  /\ exists (text : jsstring) (children : list Avatar.element),
       AvatarElement props
       = Avatar.Elem "svg"
           ([("width", text); ("height", text);
             ("viewBox", [48; 32; 48; 32; 52; 55; 52; 32; 52; 55; 52]);
             ("fill", lit "none");
             ("xmlns", lit "http://www.w3.org/2000/svg")]%string
            ++ match Avatar.className props with
               | Some c => [("className"%string, c)]
               | None => []
               end
            ++ match Avatar.style props with
               | Some c => [("style"%string, c)]
               | None => []
               end)
           children
       /\ (Avatar.size props = None -> text = [50; 48; 48])
       /\ (forall n safe, Avatar.size props = Some (SafeInteger n safe) ->
             0 <= n -> decimalValue text = Some n)
       /\ (forall other, Avatar.size props = Some (OtherNumber other) ->
             text = lit other).
Proof.
  destruct props as [size className style background skin tshirt expression hair].
  unfold Avatar.Avatar, Avatar.propOr.
  cbn [Avatar.size Avatar.className Avatar.style Avatar.background Avatar.skin
       Avatar.tshirt Avatar.expression Avatar.hair].
  destruct avatarDefault_values as (-> & -> & -> & -> & ->).
  split; [by destruct size, background, skin, tshirt, expression, hair|].
  eexists _, _. split; [reflexivity|]. split; [|split].
  - by intros ->.
  - intros n safe -> Hn. by apply decimalValue_numeral.
  - by intros other ->.
Qed.

End AvatarComponent.

(** ** An object URL that is not released *)

Lemma downloadSvg_leaks_when_a_step_throws_witness :
  windowDefined headScriptHost = true
  /\ is_Some (throws headScriptHost AppendChild)
  /\ 0%nat ∈ objectUrls
       (ExportUtils.downloadSvg v8ObjectPrototype ∅ ∅ ∅ ∅ ∅
             headScriptHost ∅ (lit "avatar.svg")
          emptyWorld).2.
Proof.
  assert (H : is_Some (throws headScriptHost AppendChild))
    by (eexists; reflexivity).
  split; [reflexivity|]. split; [exact H|].
  exact (downloadSvg_leaks_when_a_step_throws v8ObjectPrototype ∅ ∅ ∅ ∅ ∅
        headScriptHost ∅
           (lit "avatar.svg") emptyWorld eq_refl eq_refl eq_refl
           (or_intror (or_introl H))).
Defined.
